(** * WordCrack: the candidate generator of [realistic_wordlist.py]

    A shallow embedding of the generator and of the helpers it is built
    from, followed by the properties the specification states about them.

    Conventions of the embedding.
    - Python [str] values are [string]s; the embedding covers text in the
      ASCII range (codes 0 to 127), where [lower], [upper], [\s] and [\d]
      are the tables written out below.  A character above 127 is carried
      along unchanged, which is not what Python's Unicode tables do with
      it: a statement that depends on the case or on the class of the
      characters of a text is made for ASCII text, with [Str.isascii] as
      its hypothesis.
    - A Python [set] of strings is a [gset string].  The order in which a
      set is iterated and the effect of [random.shuffle] are not fixed by
      the program text (string hashing is salted per process), so both are
      operations of an abstract runtime, [PyRuntime], known only to
      permute their argument.
    - Exceptions are values of [result]; [try ... except: pass] becomes a
      match on them. *)

From Stdlib Require Import Ascii.
From stdpp Require Import gmap mapset strings list pretty.

Local Open Scope Z_scope.

(** ** Exceptions *)

Inductive exn : Type :=
  | TypeError
  | ValueError.

Inductive result (A : Type) : Type :=
  | Ok (a : A)
  | Raise (e : exn).

Arguments Ok {A} a.
Arguments Raise {A} e.

Global Instance result_ret : MRet result := fun _ a => Ok a.

Global Instance result_bind : MBind result := fun _ _ k m =>
  match m with
  | Ok a => k a
  | Raise e => Raise e
  end.

(** [f] applied to the elements from left to right; the first exception
    ends the traversal. *)
Fixpoint rmap {A B : Type} (f : A → result B) (l : list A) : result (list B) :=
  match l with
  | [] => Ok []
  | x :: l' => y ← f x; ys ← rmap f l'; Ok (y :: ys)
  end.

(** ** Characters and strings *)

Module Char.

Definition code (c : ascii) : N := N_of_ascii c.

Definition is_upper (c : ascii) : bool :=
  ((65 <=? code c) && (code c <=? 90))%N.

Definition is_lower (c : ascii) : bool :=
  ((97 <=? code c) && (code c <=? 122))%N.

(** [\d] on ASCII text. *)
Definition is_digit (c : ascii) : bool :=
  ((48 <=? code c) && (code c <=? 57))%N.

(** [\s] and [str.isspace] on ASCII text: tab, the line terminators
    10 to 13, the separators 28 to 31 and the space. *)
Definition is_space (c : ascii) : bool :=
  (((9 <=? code c) && (code c <=? 13))
   || ((28 <=? code c) && (code c <=? 31))
   || (code c =? 32))%N.

Definition lower (c : ascii) : ascii :=
  if is_upper c then ascii_of_N (code c + 32) else c.

Definition upper (c : ascii) : ascii :=
  if is_lower c then ascii_of_N (code c - 32) else c.

(** The characters of the ASCII range. *)
Definition is_ascii (c : ascii) : bool := (code c <? 128)%N.

End Char.

Module Str.

(** [len(s)] *)
Definition len (s : string) : Z := Z.of_nat (String.length s).

Fixpoint map (f : ascii → ascii) (s : string) : string :=
  match s with
  | EmptyString => EmptyString
  | String c s' => String (f c) (map f s')
  end.

Fixpoint filter (p : ascii → bool) (s : string) : string :=
  match s with
  | EmptyString => EmptyString
  | String c s' => if p c then String c (filter p s') else filter p s'
  end.

Fixpoint forallb (p : ascii → bool) (s : string) : bool :=
  match s with
  | EmptyString => true
  | String c s' => p c && forallb p s'
  end.

(** [s[:n]] for [n >= 0]. *)
Fixpoint take (n : nat) (s : string) : string :=
  match n, s with
  | S n', String c s' => String c (take n' s')
  | _, _ => EmptyString
  end.

(** [s[n:]] for [n >= 0]. *)
Fixpoint drop (n : nat) (s : string) : string :=
  match n, s with
  | S n', String _ s' => drop n' s'
  | _, _ => s
  end.

(** [s[-k:]] for [k > 0]: the last [k] characters, all of [s] when it is
    shorter. *)
Definition last_n (k : nat) (s : string) : string :=
  drop (String.length s - k)%nat s.

(** [s[:-k]] for [k > 0]. *)
Definition drop_last (k : nat) (s : string) : string :=
  take (String.length s - k)%nat s.

(** [str.isascii()] *)
Definition isascii : string → bool := forallb Char.is_ascii.

(** [str.lower()] and [str.upper()] on ASCII text. *)
Definition lower : string → string := map Char.lower.
Definition upper : string → string := map Char.upper.

(** [str.capitalize()] on ASCII text: the first character upper-cased,
    every other character lower-cased. *)
Definition capitalize (s : string) : string :=
  match s with
  | EmptyString => EmptyString
  | String c s' => String (Char.upper c) (lower s')
  end.

Fixpoint lstrip (s : string) : string :=
  match s with
  | EmptyString => EmptyString
  | String c s' => if Char.is_space c then lstrip s' else s
  end.

(** [str.strip()] *)
Definition strip (s : string) : string :=
  String.rev (lstrip (String.rev (lstrip s))).

(** [''.join(l)] *)
Definition join (l : list string) : string :=
  foldr String.app EmptyString l.

(** The characters of a string, as iterating over it yields them. *)
Fixpoint chars (s : string) : list string :=
  match s with
  | EmptyString => []
  | String c s' => String c EmptyString :: chars s'
  end.

(** [int(s)] on a string of decimal digits. *)
Fixpoint to_int_from (acc : Z) (s : string) : Z :=
  match s with
  | EmptyString => acc
  | String c s' => to_int_from (10 * acc + Z.of_N (Char.code c - 48)) s'
  end.
Definition to_int : string → Z := to_int_from 0.

(** [str(n)] *)
Definition of_int (n : Z) : string := pretty n.

End Str.

(** ** Payload values

    The payload is the decoded JSON body: a dictionary from field names to
    scalars or lists of scalars.  Numbers are integers. *)

Inductive atom : Type :=
  | ANone
  | ABool (b : bool)
  | AInt (n : Z)
  | AStr (s : string).

Inductive value : Type :=
  | VAtom (a : atom)
  | VList (l : list atom).

Abbreviation VStr s := (VAtom (AStr s)).

Definition atom_truthy (a : atom) : bool :=
  match a with
  | ANone => false
  | ABool b => b
  | AInt n => negb (n =? 0)
  | AStr s => negb (String.eqb s "")
  end.

Definition truthy (v : value) : bool :=
  match v with
  | VAtom a => atom_truthy a
  | VList l => negb (bool_decide (l = []))
  end.

(** [data.get(k)]: [None] for a missing key. *)
Definition get (data : gmap string value) (k : string) : value :=
  default (VAtom ANone) (data !! k).

(** [a or b] *)
Definition py_or (a b : value) : value := if truthy a then a else b.

(** [for x in v]: a list yields its elements, a string its characters,
    nothing else is iterable. *)
Definition py_iter (v : value) : result (list atom) :=
  match v with
  | VList l => Ok l
  | VAtom (AStr s) => Ok (AStr <$> Str.chars s)
  | VAtom _ => Raise TypeError
  end.

(** [sys.get_int_max_str_digits()] *)
Definition INT_MAX_STR_DIGITS : nat := 4300.

(** [str(y)] for a scalar.  An integer of more than [INT_MAX_STR_DIGITS]
    digits, the sign not counted, is refused with a [ValueError]. *)
Definition py_str (a : atom) : result string :=
  match a with
  | ANone => Ok "None"
  | ABool true => Ok "True"
  | ABool false => Ok "False"
  | AInt n =>
      if (INT_MAX_STR_DIGITS <? String.length (Str.of_int (Z.abs n)))%nat
      then Raise ValueError
      else Ok (Str.of_int n)
  | AStr s => Ok s
  end.

(** [l[:k]] for any integer [k]: a negative bound counts from the end. *)
Definition slice_to {A : Type} (k : Z) (l : list A) : list A :=
  if 0 <=? k then take (Z.to_nat k) l
  else take (length l - Z.to_nat (- k))%nat l.

(** ** Configuration *)

Definition WATERMARK : string := "--EDU".
Definition MAX_OUTPUT : Z := 5000.
Definition MIN_LEN_DEFAULT : Z := 6.
Definition MAX_LEN_DEFAULT : Z := 16.
Definition COMMON_BLACKLIST : gset string :=
  list_to_set
    [ "123456"; "password"; "qwerty"; "admin"; "letmein"; "welcome";
      "12345678"; "123456789"; "1234567890"; "abc123"; "password1" ].
Definition SEED : Z := 42.

(** ** The runtime: set iteration order and the random generator

    [random.seed], [random.shuffle] and the iteration order of a [set] are
    the interpreter's.  The program relies on nothing about them beyond
    what the laws below state, and neither do the theorems. *)

Inductive set_site : Type :=
  | TokenSet       (* [tokens] in [extract_tokens] *)
  | YearSet        (* [years] in [get_years] *)
  | CandidateSet.  (* [candidates] in [generate_realistic] *)

Class PyRuntime : Type := {
  rng : Type;
  (** [random.seed(n)] *)
  seed : Z → rng;
  (** [random.shuffle(l)]: the shuffled list and the generator's next state *)
  shuffle : rng → list string → list string * rng;
  (** [list(s)] and [for x in s] on a set *)
  set_iter : set_site → gset string → list string;
  shuffle_perm : ∀ g l, (shuffle g l).1 ≡ₚ l;
  set_iter_perm : ∀ i s, set_iter i s ≡ₚ elements s;
}.

(** [s.add(x)], as an insertion into the trie that backs the set. *)
Definition set_add (x : string) (s : gset string) : gset string :=
  let (m) := s in Mapset (<[x:=()]> m).

(** ** Helpers *)

Definition sanitize (v : value) : result string :=
  if truthy v then
    match v with
    | VAtom (AStr s) =>
        Ok (Str.lower
              (Str.strip (Str.filter (fun c => negb (Char.is_space c)) s)))
    | _ => Raise TypeError
    end
  else Ok "".

(** [sanitize(x) for x in v if x] *)
Definition sanitize_each (xs : list atom) : result (list string) :=
  rmap (fun x => sanitize (VAtom x)) (filter (fun x => atom_truthy x) xs).

Definition skip_keys : gset string :=
  list_to_set
    [ "auth_phrase"; "count"; "min_len"; "max_len";
      "include_specials"; "include_uppercase";
      "extra_words"; "important_years"; "apps" ].

(** One turn of the loop over [data.items()]: what the field adds to
    [tokens]. *)
Definition field_tokens (k : string) (v : value) : result (list string) :=
  if bool_decide (k ∈ skip_keys) || negb (truthy v) then Ok []
  else
    match v with
    | VAtom (AStr _) => t ← sanitize v; Ok [t]
    | VList l => sanitize_each l
    | VAtom _ => Ok []
    end.

Section runtime.
Context `{PyRuntime}.

Definition extract_tokens (data : gmap string value) : result (list string) :=
  found ← rmap (fun kv => field_tokens kv.1 kv.2) (map_to_list data);
  extra ← (if truthy (get data "extra_words")
           then xs ← py_iter (get data "extra_words"); sanitize_each xs
           else Ok []);
  let tokens : gset string := list_to_set (concat found ++ extra) in
  Ok (filter (fun t => t ≠ "") (set_iter TokenSet tokens)).

End runtime.

(** *** The date of birth *)

Record dob_parts : Type := DobParts {
  dd : string;
  mm : string;
  yyyy : string;
  full : string;
}.

Module Re.

(** [\d{n}] at the head of [s]: the digits and the rest. *)
Fixpoint digits (n : nat) (s : string) : option (string * string) :=
  match n with
  | O => Some (EmptyString, s)
  | S n' =>
      match s with
      | String c s' =>
          if Char.is_digit c
          then '(ds, r) ← digits n' s'; Some (String c ds, r)
          else None
      | EmptyString => None
      end
  end.

(** A literal character at the head of [s]: the rest. *)
Definition lit (c : ascii) (s : string) : option string :=
  match s with
  | String c' s' => if bool_decide (c' = c) then Some s' else None
  | EmptyString => None
  end.

(** The end of the subject, as [fullmatch] requires it. *)
Definition eos {A : Type} (a : A) (s : string) : option A :=
  match s with
  | EmptyString => Some a
  | String _ _ => None
  end.

(** [re.fullmatch(r'(\d{2})/(\d{2})/(\d{4})', s)]: the three groups. *)
Definition fullmatch_dob (s : string) : option (string * string * string) :=
  '(d, r) ← digits 2 s;
  r ← lit "/" r;
  '(m, r) ← digits 2 r;
  r ← lit "/" r;
  '(y, r) ← digits 4 r;
  eos (d, m, y) r.

(** [re.fullmatch(r'\d{10}', s)] *)
Definition fullmatch_digits10 (s : string) : bool :=
  match digits 10 s with
  | Some (_, EmptyString) => true
  | _ => false
  end.

End Re.

Definition parse_dob (dob : value) : result dob_parts :=
  match py_or dob (VStr "") with
  | VAtom (AStr s) =>
      match Re.fullmatch_dob s with
      | None => Raise ValueError
      | Some (d, m, y) =>
          Ok {| dd := d; mm := m; yyyy := y; full := d +:+ m +:+ y |}
      end
  | _ => Raise TypeError
  end.

Section runtime.
Context `{PyRuntime}.

Definition get_years (data : gmap string value) : result (list string) :=
  let years : gset string := ∅ in
  let years :=
    if truthy (get data "dob") then
      match parse_dob (get data "dob") with
      | Ok p => set_add (yyyy p) years
      | Raise _ => years
      end
    else years in
  years ← (if truthy (get data "important_years")
           then ys ← py_iter (get data "important_years");
                ys ← rmap (fun y => s ← py_str y; Ok (Str.last_n 4 (Str.strip s)))
                       (filter (fun y => atom_truthy y) ys);
                Ok (list_to_set ys ∪ years)
           else Ok years);
  Ok (set_iter YearSet years).

End runtime.

(** ** Transforms *)

(** [enumerate(token)] *)
Definition enumerate (token : string) : list (nat * string) :=
  let cs := Str.chars token in zip (seq 0 (length cs)) cs.

(** [c.upper() if i % 2 == 0 else c.lower()] over [enumerate(token)] *)
Fixpoint alternate (i : nat) (token : string) : string :=
  match token with
  | EmptyString => EmptyString
  | String c s =>
      String (if Nat.even i then Char.upper c else Char.lower c)
             (alternate (S i) s)
  end.

Definition case_variants (token : string) (include_upper : bool) : list string :=
  Str.lower token ::
  (if include_upper then
     Str.upper token :: Str.capitalize token ::
     (if 1 <? Str.len token then [alternate 0 token] else [])
   else []).

(** Keys of a Python dictionary that holds both ordinals and strings. *)
Inductive key : Type :=
  | KInt (n : Z)
  | KStr (s : string).

Global Instance key_eq_dec : EqDecision key.
Proof. solve_decision. Defined.

(** [ord(c)] *)
Definition ord (c : ascii) : Z := Z.of_N (Char.code c).

(** [str.maketrans(d)]: a key that is a one-character string is stored
    under the ordinal of its character. *)
Definition maketrans (d : list (key * string)) : list (key * string) :=
  (fun kv : key * string =>
     match kv.1 with
     | KStr (String c EmptyString) => (KInt (ord c), kv.2)
     | _ => kv
     end) <$> d.

(** [d.get(k, default)] *)
Fixpoint dict_get (d : list (key * string)) (k : key) (default : string) : string :=
  match d with
  | [] => default
  | (k', v) :: d' => if decide (k' = k) then v else dict_get d' k default
  end.

(** [s.translate(table)]: each character is looked up by its ordinal. *)
Fixpoint translate (table : list (key * string)) (s : string) : string :=
  match s with
  | EmptyString => EmptyString
  | String c s' =>
      dict_get table (KInt (ord c)) (String c EmptyString) +:+ translate table s'
  end.

(** [x in s] on strings *)
Definition str_in (x s : string) : bool :=
  bool_decide (is_Some (String.index 0 x s)).

Definition leet_table : list (key * string) :=
  maketrans
    [ (KStr "a", "4"); (KStr "e", "3"); (KStr "i", "1"); (KStr "o", "0");
      (KStr "s", "5"); (KStr "t", "7"); (KStr "g", "9"); (KStr "b", "8") ].

Definition leet_variants (token : string) : list string :=
  let table := leet_table in
  translate table token ::
  ('(i, c) ← enumerate token;
   if str_in (Str.lower c) "aeiostgb"
   then [Str.take i token +:+ dict_get table (KStr c) c +:+ Str.drop (S i) token]
   else []).

Definition append_specials (base : string) (include : bool) : list string :=
  if negb include then []
  else
    let specials := ["!"; "@"; "#"; "$"; "*"] in
    ((fun s => base +:+ s) <$> specials) ++ ((fun s => s +:+ base) <$> specials).

Definition insert_special (base : string) (include : bool) : list string :=
  if negb include || (Str.len base <? 2) then []
  else
    sp ← ["!"; "@"; "1"; "2"];
    i ← seq 1 (String.length base - 1);
    [Str.take i base +:+ sp +:+ Str.drop i base].

Definition numeric_suffixes (base : string) (numbers : list string) : list string :=
  n ← numbers ++ ["1"; "2"; "3"; "123"; "007"; "69"; "420"; "12"; "21"];
  [base +:+ n; n +:+ base].

Definition date_variants (p : dob_parts) : list string :=
  let y := yyyy p in
  [ full p;
    dd p +:+ mm p +:+ y;
    y; Str.last_n 2 y;
    Str.of_int (Str.to_int y - 1); Str.of_int (Str.to_int y + 1);
    dd p +:+ "-" +:+ mm p +:+ "-" +:+ y ].

(** [itertools.combinations(l, 2)] *)
Fixpoint combinations2 {A : Type} (l : list A) : list (A * A) :=
  match l with
  | [] => []
  | a :: l' => (pair a <$> l') ++ combinations2 l'
  end.

(** Every element of [l] with the elements before and after it. *)
Fixpoint selections {A : Type} (l : list A) : list (A * list A) :=
  match l with
  | [] => []
  | a :: l' => (a, l') :: ((fun br : A * list A => (br.1, a :: br.2)) <$> selections l')
  end.

(** [itertools.permutations(l, r)], in its lexicographic order of
    positions. *)
Fixpoint permutations {A : Type} (r : nat) (l : list A) : list (list A) :=
  match r with
  | O => [[]]
  | S r' => ar ← selections l; cons ar.1 <$> permutations r' ar.2
  end.

(** ** The generator *)

(** The nested function [add] of [generate_realistic], with the variables
    it captures as parameters. *)
Definition add (min_len max_len : Z) (w : string) (candidates : gset string) : gset string :=
  if bool_decide (min_len ≤ Str.len w ≤ max_len)
     && bool_decide (w ∉ COMMON_BLACKLIST)
  then set_add (w +:+ WATERMARK) candidates
  else candidates.

(** [for w in ws: add(w)] *)
Definition add_each (min_len max_len : Z) (ws : list string) (candidates : gset string) : gset string :=
  foldl (fun c w => add min_len max_len w c) candidates ws.

(** [w[:-len(WATERMARK)]] *)
Definition unmark (w : string) : string :=
  Str.drop_last (String.length WATERMARK) w.

(** The loop of the permutation fallback: the candidates when it ends and
    the permutations it has not consumed. *)
Fixpoint fallback_loop (min_len max_len remaining : Z) (perms : list string) (candidates : gset string) : gset string * list string :=
  match perms with
  | [] => (candidates, [])
  | p :: perms' =>
      if remaining <=? 0 then (candidates, perms)
      else fallback_loop min_len max_len (remaining - 1) perms'
             (add min_len max_len p candidates)
  end.

Section runtime.
Context `{PyRuntime}.

(** [for w in list(candidates)[:n]: for v in f(w[:-len(WATERMARK)]): add(v)] *)
Definition stage (min_len max_len : Z) (n : nat) (f : string → list string) (candidates : gset string) : gset string :=
  add_each min_len max_len
    (w ← take n (set_iter CandidateSet candidates); f (unmark w))
    candidates.

(** The permutation fallback (lines 188 to 196): the candidates, the
    shuffled permutations left unconsumed and the generator's state. *)
Definition fallback (min_len max_len count : Z) (tokens : list string) (candidates : gset string) (g : rng) : gset string * list string * rng :=
  let remaining := count - Z.of_nat (size candidates) in
  if 0 <? remaining then
    let perms := Str.join <$> (permutations 2 tokens ++ permutations 3 tokens) in
    let '(perms, g) := shuffle g perms in
    (fallback_loop min_len max_len remaining perms candidates, g)
  else (candidates, [], g).

(** The transform stages (lines 160 to 186): token pairs, then case, leet,
    special-character and numeric variants of bounded prefixes of the
    candidate set. *)
Definition transform_stages (min_len max_len : Z) (include_specials include_uppercase : bool) (tokens numbers : list string) (candidates : gset string) : gset string :=
  let candidates :=
    add_each min_len max_len
      (ab ← combinations2 tokens;
       [ab.1 +:+ ab.2; ab.1 +:+ "." +:+ ab.2; ab.1 +:+ "_" +:+ ab.2])
      candidates in
  let candidates :=
    if include_uppercase
    then stage min_len max_len 300 (fun base => case_variants base true) candidates
    else candidates in
  let candidates := stage min_len max_len 200 leet_variants candidates in
  let candidates :=
    if include_specials
    then stage min_len max_len 400
           (fun base => append_specials base true ++ insert_special base true)
           candidates
    else candidates in
  stage min_len max_len 300 (fun base => numeric_suffixes base numbers)
    candidates.

(** [dob_parts] as lines 133 to 138 leave it: [None] stands for the empty
    dictionary. *)
Definition dob_facts (data : gmap string value) : option dob_parts :=
  if truthy (get data "dob") then
    match parse_dob (get data "dob") with
    | Ok p => Some p
    | Raise _ => None
    end
  else None.

(** The body of [generate_realistic] from the date of birth to the end of
    the fallback (lines 133 to 196): the candidate set as the output step
    finds it, with the permutations the fallback left unconsumed and the
    state of the generator. *)
Definition accumulate (data : gmap string value) (tokens : list string) (count min_len max_len : Z) (include_specials include_uppercase : bool) : result (gset string * list string * rng) :=
  let g := seed SEED in
  let candidates : gset string := ∅ in
  let dob_parts := dob_facts data in
  numbers ← get_years data;
  numbers ← (if truthy (get data "lucky_number")
             then n ← sanitize (get data "lucky_number"); Ok (numbers ++ [n])
             else Ok numbers);
  numbers ← (if truthy (get data "phone")
             then phone ← sanitize (get data "phone");
                  Ok (if Re.fullmatch_digits10 phone
                      then numbers ++ [Str.last_n 4 phone; phone]
                      else numbers)
             else Ok numbers);
  name ← sanitize (py_or (py_or (get data "full_name") (get data "nickname"))
                         (VStr ""));
  let candidates :=
    match dob_parts with
    | Some p =>
        if bool_decide (name ≠ "")
        then add_each min_len max_len
               (d ← date_variants p; [name +:+ d; d +:+ name]) candidates
        else candidates
    | None => candidates
    end in
  candidates ← (if bool_decide (name ≠ "") && truthy (get data "lucky_number")
                then n ← sanitize (get data "lucky_number");
                     Ok (add_each min_len max_len [name +:+ n; n +:+ name]
                           candidates)
                else Ok candidates);
  let candidates :=
    transform_stages min_len max_len include_specials include_uppercase
      tokens numbers candidates in
  Ok (fallback min_len max_len count tokens candidates g).

Definition generate_realistic (data : gmap string value) (count min_len max_len : Z) (include_specials include_uppercase : bool) : result (list string) :=
  tokens ← extract_tokens data;
  if bool_decide (tokens = []) then Ok []
  else
    '(candidates, _, g) ←
      accumulate data tokens count min_len max_len
        include_specials include_uppercase;
    let final := set_iter CandidateSet candidates in
    let '(final, _) := shuffle g final in
    Ok (slice_to (Z.min count MAX_OUTPUT) final).

End runtime.

(** ** Concrete runtimes

    Two interpreters that satisfy the runtime's laws; the examples are
    evaluated with them. *)

(** Sets are iterated in the order of their trie and shuffling leaves a
    list as it is. *)
Definition stable_runtime : PyRuntime :=
  {| rng := unit;
     seed := fun _ => tt;
     shuffle := fun g l => (l, g);
     set_iter := fun _ s => elements s;
     shuffle_perm := fun _ l => reflexivity l;
     set_iter_perm := fun _ s => reflexivity (elements s) |}.

(** The strings that contain a slash, then the others. *)
Definition slash_first (l : list string) : list string :=
  filter (fun x => str_in "/" x) l ++ filter (fun x => ¬ str_in "/" x) l.

(** Sets are iterated, and lists are shuffled, with the strings that
    contain a slash in front. *)
Definition slash_first_runtime : PyRuntime :=
  {| rng := unit;
     seed := fun _ => tt;
     shuffle := fun g l => (slash_first l, g);
     set_iter := fun _ s => slash_first (elements s);
     shuffle_perm := fun _ l => filter_app_complement (fun x => str_in "/" x) l;
     set_iter_perm := fun _ s =>
       filter_app_complement (fun x => str_in "/" x) (elements s) |}.

(** ** Payloads of the examples *)

Definition john_smith : gmap string value :=
  list_to_map
    [ ("dob", VStr "15/06/1990"); ("full_name", VStr "John Smith");
      ("extra_words", VList [AStr "Rex"]) ].

Definition john_smith_dob : dob_parts :=
  {| dd := "15"; mm := "06"; yyyy := "1990"; full := "15061990" |}.

Definition ann_lee : gmap string value :=
  list_to_map [ ("full_name", VStr "Ann Lee"); ("nickname", VStr "Bo") ].

Definition three_names : gmap string value :=
  list_to_map [ ("full_name", VStr "ab"); ("nickname", VStr "cd");
                ("email", VStr "efg") ].


Definition only_years : gmap string value :=
  list_to_map [ ("important_years", VList [AStr "2001"]);
                ("count", VAtom (AInt 10)) ].

(** A candidate made of the name and a date variant, as lines 149 to 153
    add them. *)
Definition name_date_candidate (name : string) (p : dob_parts) (x : string) : Prop :=
  ∃ d, d ∈ date_variants p ∧
       (x = (name +:+ d) +:+ WATERMARK ∨ x = (d +:+ name) +:+ WATERMARK).

(** ** Predicates of the specification *)

(** What [add] admits: the word is within the length bounds and is not
    blacklisted. *)
Definition admissible (min_len max_len : Z) (w : string) : Prop :=
  min_len ≤ Str.len w ≤ max_len ∧ w ∉ COMMON_BLACKLIST.

Global Instance admissible_dec min_len max_len w :
  Decision (admissible min_len max_len w).
Proof. unfold admissible. apply _. Defined.

(** The candidate sets a run can reach from [c]: [c] after some sequence
    of calls of [add]. *)
Definition extends (min_len max_len : Z) (c c' : gset string) : Prop :=
  ∃ ws, c' = add_each min_len max_len ws c.

(** Where a token can come from: a string field or an element of a list
    field outside [skip_keys], or an element of [extra_words]. *)
Definition token_source (data : gmap string value) (t : string) : Prop :=
  (∃ k s, data !! k = Some (VStr s) ∧ (k ∉ skip_keys) ∧ sanitize (VStr s) = Ok t)
  ∨ (∃ k l x, data !! k = Some (VList l) ∧ (k ∉ skip_keys) ∧
              x ∈ l ∧ atom_truthy x ∧ sanitize (VAtom x) = Ok t)
  ∨ (∃ xs x, py_iter (get data "extra_words") = Ok xs ∧
             x ∈ xs ∧ atom_truthy x ∧ sanitize (VAtom x) = Ok t).

(** The pattern [DD/MM/YYYY]: two digits, a slash, two digits, a slash,
    four digits, and nothing else. *)
Definition dob_shape (s : string) : Prop :=
  ∃ d m y,
    s = d +:+ "/" +:+ m +:+ "/" +:+ y ∧
    String.length d = 2%nat ∧ String.length m = 2%nat ∧
    String.length y = 4%nat ∧
    Str.forallb Char.is_digit d ∧ Str.forallb Char.is_digit m ∧
    Str.forallb Char.is_digit y.



(** The six control fields of the payload. *)
Definition control_fields : gset string :=
  list_to_set
    [ "count"; "min_len"; "max_len";
      "include_specials"; "include_uppercase"; "auth_phrase" ].

(** The fields the generator reads as a single string. *)
Definition scalar_reads : gset string :=
  list_to_set [ "full_name"; "nickname"; "lucky_number"; "phone" ].

Definition is_text (v : value) : Prop :=
  match v with
  | VAtom ANone | VAtom (AStr _) => True
  | _ => False
  end.

Definition is_text_list (v : value) : Prop :=
  match v with
  | VList l => Forall (fun a => ∃ s, a = AStr s) l
  | _ => False
  end.

(** A payload as the specification's data model has it: every field
    that is not a control field is absent, a string or a sequence of
    strings, and the fields read as single strings are not sequences. *)
Definition well_typed (data : gmap string value) : Prop :=
  ∀ k v, data !! k = Some v → k ∉ control_fields →
    is_text v ∨ ((k ∉ scalar_reads) ∧ is_text_list v).

(** * Properties *)

Lemma Ok_inj {A : Type} (a b : A) : Ok a = Ok b → a = b.
Proof. congruence. Qed.

(** One step of evaluation of a bind whose first computation is known. *)
Ltac bind_step H := cbn [mbind result_bind mret result_ret] in H.

(** ** Strings *)

Lemma length_app (a b : string) :
  String.length (a +:+ b) = (String.length a + String.length b)%nat.
Proof. induction a as [|c a IH]; simpl; [done | by rewrite IH]. Qed.

Lemma app_empty_r (a : string) : a +:+ "" = a.
Proof.
  induction a as [|c a IH]; [done|].
  change (String c a +:+ "") with (String c (a +:+ "")). by rewrite IH.
Qed.

Lemma take_app_length (a b : string) : Str.take (String.length a) (a +:+ b) = a.
Proof.
  induction a as [|c a IH]; simpl.
  - by destruct b.
  - by rewrite IH.
Qed.

Lemma unmark_marked (w : string) : unmark (w +:+ WATERMARK) = w.
Proof.
  unfold unmark, Str.drop_last. rewrite length_app.
  replace (String.length w + String.length WATERMARK - String.length WATERMARK)%nat
    with (String.length w) by lia.
  apply take_app_length.
Qed.

(** ** The candidate accumulator *)

Lemma elem_of_set_add (x y : string) (s : gset string) :
  y ∈ set_add x s ↔ y = x ∨ y ∈ s.
Proof.
  destruct s as [m].
  unfold set_add, elem_of, gset_elem_of, mapset_elem_of; simpl.
  destruct (decide (x = y)) as [->|Hne].
  - rewrite lookup_insert_eq. naive_solver.
  - rewrite lookup_insert_ne by done. naive_solver.
Qed.

Lemma set_add_union (x : string) (s : gset string) : set_add x s = {[x]} ∪ s.
Proof. apply set_eq. intros y. rewrite elem_of_set_add. set_solver. Qed.

Lemma add_spec min_len max_len w c :
  add min_len max_len w c =
  if decide (admissible min_len max_len w) then {[w +:+ WATERMARK]} ∪ c else c.
Proof.
  unfold add, admissible. rewrite set_add_union.
  destruct (decide _) as [[H1 H2]|Hn].
  - by rewrite !bool_decide_eq_true_2.
  - destruct (bool_decide (min_len ≤ _ ≤ _)) eqn:E1;
      destruct (bool_decide (_ ∉ _)) eqn:E2; simpl; try done.
    apply bool_decide_eq_true in E1, E2. by destruct Hn.
Qed.

Lemma elem_of_add min_len max_len w c x :
  x ∈ add min_len max_len w c ↔
  (admissible min_len max_len w ∧ x = w +:+ WATERMARK) ∨ x ∈ c.
Proof. rewrite add_spec. case_decide; set_solver. Qed.

Lemma elem_of_add_each min_len max_len ws c x :
  x ∈ add_each min_len max_len ws c ↔
  (∃ w, w ∈ ws ∧ admissible min_len max_len w ∧ x = w +:+ WATERMARK) ∨ x ∈ c.
Proof.
  unfold add_each. revert c.
  induction ws as [|w ws IH]; intros c; simpl.
  - set_solver.
  - rewrite IH, elem_of_add. set_solver.
Qed.

Lemma add_each_app min_len max_len ws1 ws2 c :
  add_each min_len max_len (ws1 ++ ws2) c =
  add_each min_len max_len ws2 (add_each min_len max_len ws1 c).
Proof. unfold add_each. apply foldl_app. Qed.

Lemma size_add min_len max_len w c :
  (size c ≤ size (add min_len max_len w c) ≤ S (size c))%nat.
Proof.
  rewrite add_spec. case_decide; [|lia].
  destruct (decide (w +:+ WATERMARK ∈ c)) as [Hin|Hout].
  - replace ({[w +:+ WATERMARK]} ∪ c) with c by set_solver. lia.
  - rewrite size_union by set_solver. rewrite size_singleton. lia.
Qed.

Lemma size_add_each min_len max_len ws c :
  (size c ≤ size (add_each min_len max_len ws c) ≤ size c + length ws)%nat.
Proof.
  unfold add_each. revert c.
  induction ws as [|w ws IH]; intros c; simpl; [lia|].
  specialize (IH (add min_len max_len w c)).
  pose proof (size_add min_len max_len w c). lia.
Qed.

Lemma extends_refl min_len max_len c : extends min_len max_len c c.
Proof. by exists []. Qed.

Lemma extends_trans min_len max_len c1 c2 c3 :
  extends min_len max_len c1 c2 → extends min_len max_len c2 c3 →
  extends min_len max_len c1 c3.
Proof.
  intros [ws1 ->] [ws2 ->]. exists (ws1 ++ ws2). by rewrite add_each_app.
Qed.

Lemma extends_add_each min_len max_len ws c :
  extends min_len max_len c (add_each min_len max_len ws c).
Proof. by exists ws. Qed.

Lemma extends_subseteq min_len max_len c c' :
  extends min_len max_len c c' → c ⊆ c'.
Proof. intros [ws ->] x Hx. apply elem_of_add_each. by right. Qed.

Lemma extends_empty_admitted min_len max_len c x :
  extends min_len max_len ∅ c → x ∈ c →
  ∃ w, x = w +:+ WATERMARK ∧ admissible min_len max_len w.
Proof.
  intros [ws ->] [(w & _ & Hw & ->)|Hx]%elem_of_add_each; [eauto | set_solver].
Qed.

Lemma fallback_loop_take_drop min_len max_len remaining perms c :
  fallback_loop min_len max_len remaining perms c =
  (add_each min_len max_len (take (Z.to_nat remaining) perms) c,
   drop (Z.to_nat remaining) perms).
Proof.
  revert remaining c. induction perms as [|p perms IH]; intros remaining c; simpl.
  - by rewrite take_nil, drop_nil.
  - destruct (Z.leb_spec remaining 0) as [Hle|Hgt].
    + by replace (Z.to_nat remaining) with O by lia.
    + rewrite IH.
      replace (Z.to_nat remaining) with (S (Z.to_nat (remaining - 1))) by lia.
      done.
Qed.

Section accumulator.
Context `{PyRuntime}.

Lemma extends_stage min_len max_len n f c :
  extends min_len max_len c (stage min_len max_len n f c).
Proof. apply extends_add_each. Qed.

Lemma extends_transform_stages min_len max_len sp up tokens numbers c :
  extends min_len max_len c
    (transform_stages min_len max_len sp up tokens numbers c).
Proof.
  unfold transform_stages.
  repeat first
    [ apply extends_refl
    | eapply extends_trans; [|apply extends_stage]
    | eapply extends_trans; [|apply extends_add_each]
    | match goal with |- context [if ?b then _ else _] => destruct b end ].
Qed.

Lemma extends_fallback min_len max_len count tokens c g :
  extends min_len max_len c (fallback min_len max_len count tokens c g).1.1.
Proof.
  unfold fallback. case_match; [|apply extends_refl].
  destruct (shuffle g _) as [perms g']. rewrite fallback_loop_take_drop. simpl.
  apply extends_add_each.
Qed.

(** The shape of a run of [accumulate] that raises nothing. *)
Lemma accumulate_inv data tokens count min_len max_len sp up r :
  accumulate data tokens count min_len max_len sp up = Ok r →
  ∃ numbers name c0 c1,
    sanitize (py_or (py_or (get data "full_name") (get data "nickname"))
                    (VStr "")) = Ok name ∧
    c0 = match dob_facts data with
         | Some p =>
             if bool_decide (name ≠ "")
             then add_each min_len max_len
                    (d ← date_variants p; [name +:+ d; d +:+ name]) ∅
             else ∅
         | None => ∅
         end ∧
    extends min_len max_len c0 c1 ∧
    r = fallback min_len max_len count tokens
          (transform_stages min_len max_len sp up tokens numbers c1)
          (seed SEED).
Proof.
  unfold accumulate. intros Hacc.
  destruct (get_years data) as [ys|]; bind_step Hacc; [|done].
  match type of Hacc with
  | mbind _ ?m = _ => destruct m as [ns|]; bind_step Hacc; [|done]
  end.
  match type of Hacc with
  | mbind _ ?m = _ => destruct m as [numbers|]; bind_step Hacc; [|done]
  end.
  match type of Hacc with
  | mbind _ ?m = _ => destruct m as [name|] eqn:Hname; bind_step Hacc; [|done]
  end.
  match type of Hacc with
  | mbind _ ?m = _ => destruct m as [c1|] eqn:Hc1; bind_step Hacc; [|done]
  end.
  apply Ok_inj in Hacc as <-.
  eexists numbers, name, _, c1. split_and!; [done|done| |done].
  destruct (_ && _) in Hc1.
  - destruct (sanitize (get data "lucky_number")); bind_step Hc1; [|done].
    apply Ok_inj in Hc1 as <-. apply extends_add_each.
  - apply Ok_inj in Hc1 as <-. apply extends_refl.
Qed.

Lemma extends_accumulate data tokens count min_len max_len sp up r :
  accumulate data tokens count min_len max_len sp up = Ok r →
  extends min_len max_len ∅ r.1.1.
Proof.
  intros (numbers & name & c0 & c1 & _ & Hc0 & Hc1 & ->)%accumulate_inv.
  eapply extends_trans; [|apply extends_fallback].
  eapply extends_trans; [|apply extends_transform_stages].
  eapply extends_trans; [|apply Hc1].
  subst c0. repeat case_match; apply extends_refl || apply extends_add_each.
Qed.

End accumulator.

(** ** The output step *)

Lemma slice_to_take {A : Type} (k : Z) (l : list A) :
  ∃ n, slice_to k l = take n l ∧ (0 ≤ k → n = Z.to_nat k).
Proof.
  unfold slice_to. destruct (Z.leb_spec 0 k).
  - eexists; split; [done|done].
  - eexists; split; [done|lia].
Qed.

Section output.
Context `{PyRuntime}.

(** A run of [generate_realistic] that raises nothing either stops at the
    empty token list or returns a prefix of the shuffled candidate set. *)
Lemma generate_realistic_inv data count min_len max_len sp up out :
  generate_realistic data count min_len max_len sp up = Ok out →
  (extract_tokens data = Ok [] ∧ out = []) ∨
  ∃ tokens candidates rest g,
    extract_tokens data = Ok tokens ∧ tokens ≠ [] ∧
    accumulate data tokens count min_len max_len sp up
      = Ok (candidates, rest, g) ∧
    out = slice_to (Z.min count MAX_OUTPUT)
            (shuffle g (set_iter CandidateSet candidates)).1.
Proof.
  unfold generate_realistic. intros Hgen.
  destruct (extract_tokens data) as [tokens|]; bind_step Hgen; [|done].
  case_bool_decide as Htok.
  - left. apply Ok_inj in Hgen as <-. by subst tokens.
  - right.
    destruct (accumulate _ _ _ _ _ _ _) as [[[c rest] g]|] eqn:Hacc;
      bind_step Hgen; [|done].
    destruct (shuffle g _) as [final g'] eqn:Hsh.
    apply Ok_inj in Hgen as <-.
    exists tokens, c, rest, g. by rewrite Hsh.
Qed.

Lemma output_sublist (k : Z) (g : rng) (c : gset string) :
  ∃ n, slice_to k (shuffle g (set_iter CandidateSet c)).1
       = take n (shuffle g (set_iter CandidateSet c)).1 ∧
       (0 ≤ k → n = Z.to_nat k) ∧
       (shuffle g (set_iter CandidateSet c)).1 ≡ₚ elements c.
Proof.
  destruct (slice_to_take k (shuffle g (set_iter CandidateSet c)).1)
    as (n & Hn & Hk).
  exists n. split_and!; [done|done|].
  by rewrite shuffle_perm, set_iter_perm.
Qed.

Lemma elem_of_output (k : Z) (g : rng) (c : gset string) (x : string) :
  x ∈ slice_to k (shuffle g (set_iter CandidateSet c)).1 → x ∈ c.
Proof.
  destruct (output_sublist k g c) as (n & -> & _ & Hperm).
  intros Hx%subseteq_take. rewrite Hperm in Hx. by apply elem_of_elements.
Qed.

(** C1. Every string that [generate_realistic] returns ends with the
    marker ["--EDU"], and what is left when the marker is removed has a
    length within [[min_len, max_len]]. *)
Theorem generate_realistic_marked data count min_len max_len sp up out x :
  generate_realistic data count min_len max_len sp up = Ok out →
  x ∈ out →
  x = unmark x +:+ WATERMARK ∧ min_len ≤ Str.len (unmark x) ≤ max_len.
Proof.
  intros [[_ ->]|(tokens & c & rest & g & _ & _ & Hacc & ->)]%generate_realistic_inv Hx.
  - by apply elem_of_nil in Hx.
  - apply elem_of_output in Hx.
    apply extends_accumulate in Hacc.
    destruct (extends_empty_admitted _ _ _ _ Hacc Hx) as (w & -> & Hlen & _).
    by rewrite unmark_marked.
Qed.

(** C10. The sequence that [generate_realistic] returns holds no string
    twice. *)
Theorem generate_realistic_NoDup data count min_len max_len sp up out :
  generate_realistic data count min_len max_len sp up = Ok out → NoDup out.
Proof.
  intros [[_ ->]|(tokens & c & rest & g & _ & _ & _ & ->)]%generate_realistic_inv.
  - constructor.
  - destruct (output_sublist (Z.min count MAX_OUTPUT) g c) as (n & -> & _ & Hperm).
    eapply sublist_NoDup; [|apply sublist_take].
    rewrite Hperm. apply NoDup_elements.
Qed.

(** C7, for a count that is not negative. The sequence that
    [generate_realistic] returns is no longer than [min(count, 5000)]. *)
Theorem generate_realistic_length data count min_len max_len sp up out :
  0 ≤ count →
  generate_realistic data count min_len max_len sp up = Ok out →
  Z.of_nat (length out) ≤ Z.min count MAX_OUTPUT.
Proof.
  intros Hcount
    [[_ ->]|(tokens & c & rest & g & _ & _ & _ & ->)]%generate_realistic_inv.
  - unfold MAX_OUTPUT. simpl. lia.
  - destruct (output_sublist (Z.min count MAX_OUTPUT) g c) as (n & -> & Hn & _).
    rewrite length_take, Hn by (unfold MAX_OUTPUT; lia).
    unfold MAX_OUTPUT in *. lia.
Qed.

(** C8. When token extraction yields no token, [generate_realistic]
    returns the empty sequence, whatever the other fields and the
    parameters are; it raises nothing. *)
Theorem generate_realistic_no_tokens data count min_len max_len sp up :
  extract_tokens data = Ok [] →
  generate_realistic data count min_len max_len sp up = Ok [].
Proof.
  intros Htok. unfold generate_realistic. rewrite Htok.
  cbn [mbind result_bind]. by rewrite bool_decide_eq_true_2.
Qed.

End output.

(** ** Traversals that may raise *)

Lemma elem_of_concat {A : Type} (x : A) (ls : list (list A)) :
  x ∈ concat ls ↔ ∃ l, x ∈ l ∧ l ∈ ls.
Proof.
  induction ls as [|l ls IH]; simpl.
  - split; [by intros ?%elem_of_nil|]. by intros (l & _ & ?%elem_of_nil).
  - rewrite elem_of_app, IH. split.
    + intros [?|(l' & ? & ?)]; [exists l|exists l']; split; try done;
        by constructor.
    + intros (l' & ? & [->|?]%elem_of_cons); eauto.
Qed.

Lemma rmap_Ok_inv {A B : Type} (f : A → result B) (l : list A) (ys : list B) :
  rmap f l = Ok ys → Forall2 (fun x y => f x = Ok y) l ys.
Proof.
  revert ys. induction l as [|x l IH]; intros ys Hmap; simpl in Hmap.
  - apply Ok_inj in Hmap as <-. constructor.
  - destruct (f x) as [y|] eqn:Hfx; bind_step Hmap; [|done].
    destruct (rmap f l) as [ys'|]; bind_step Hmap; [|done].
    apply Ok_inj in Hmap as <-. constructor; auto.
Qed.

Lemma rmap_not_raise {A B : Type} (f : A → result B) (l : list A) (ys : list B) (x : A) (e : exn) :
  Forall2 (fun x y => f x = Ok y) l ys → x ∈ l → f x = Raise e → False.
Proof.
  intros Hall Hx Hfx.
  destruct (proj1 (list_elem_of_lookup _ _) Hx) as [i Hi].
  destruct (Forall2_lookup_l _ _ _ _ _ Hall Hi) as (y & _ & Hy). congruence.
Qed.

Lemma rmap_total {A B : Type} (f : A → result B) (l : list A) :
  Forall (fun x => ∃ y, f x = Ok y) l → ∃ ys, rmap f l = Ok ys.
Proof.
  induction 1 as [|x l [y Hy] _ [ys Hys]]; simpl.
  - by eexists.
  - rewrite Hy, Hys. by eexists.
Qed.


(** ** Token extraction *)


Lemma sanitize_Ok_truthy v t :
  truthy v = true → sanitize v = Ok t → ∃ s, v = VStr s.
Proof.
  unfold sanitize. intros ->. destruct v as [[]|]; try done. by eexists.
Qed.

Lemma elem_of_sanitize_each xs ts t :
  sanitize_each xs = Ok ts →
  t ∈ ts ↔ ∃ x, x ∈ xs ∧ atom_truthy x ∧ sanitize (VAtom x) = Ok t.
Proof.
  unfold sanitize_each. intros Hall%rmap_Ok_inv. split.
  - intros Ht. destruct (proj1 (list_elem_of_lookup _ _) Ht) as [i Hi].
    destruct (Forall2_lookup_r _ _ _ _ _ Hall Hi) as (x & Hx & Hxt).
    apply list_elem_of_lookup_2, list_elem_of_filter in Hx as [? ?]. eauto.
  - intros (x & Hx & Htr & Hxt).
    assert (x ∈ filter (fun x => atom_truthy x) xs) as Hx'
      by by apply list_elem_of_filter.
    destruct (proj1 (list_elem_of_lookup _ _) Hx') as [i Hi].
    destruct (Forall2_lookup_l _ _ _ _ _ Hall Hi) as (t' & Ht' & Hxt').
    rewrite Hxt in Hxt'. apply Ok_inj in Hxt' as <-.
    by eapply list_elem_of_lookup_2.
Qed.

Lemma elem_of_field_tokens k v ts t :
  field_tokens k v = Ok ts → t ≠ "" →
  t ∈ ts ↔
  (k ∉ skip_keys) ∧
  ((∃ s, v = VStr s ∧ sanitize v = Ok t)
   ∨ (∃ l x, v = VList l ∧ x ∈ l ∧ atom_truthy x ∧ sanitize (VAtom x) = Ok t)).
Proof.
  unfold field_tokens. intros Hf Ht.
  case_bool_decide as Hk; simpl in Hf.
  { apply Ok_inj in Hf as <-. split; [by intros ?%elem_of_nil|tauto]. }
  destruct (truthy v) eqn:Hv; simpl in Hf.
  - destruct v as [[| | |s]|l]; try (apply Ok_inj in Hf as <-).
    + split; [by intros ?%elem_of_nil|]. intros [_ [(?&?&_)|(?&?&?&_)]]; done.
    + split; [by intros ?%elem_of_nil|]. intros [_ [(?&?&_)|(?&?&?&_)]]; done.
    + split; [by intros ?%elem_of_nil|]. intros [_ [(?&?&_)|(?&?&?&_)]]; done.
    + destruct (sanitize (VStr s)) as [t'|] eqn:Hs; bind_step Hf; [|done].
      apply Ok_inj in Hf as <-. rewrite list_elem_of_singleton. split.
      * intros ->. split; [done|]. left. by exists s.
      * intros [_ [(s' & [= <-] & Hs')|(?&?&?&_)]]; [|done]. congruence.
    + rewrite (elem_of_sanitize_each _ _ _ Hf). split.
      * intros (x & ? & ? & ?). split; [done|]. right. by exists l, x.
      * intros [_ [(?&?&_)|(l' & x & [= <-] & ? & ? & ?)]]; [done|]. eauto.
  - apply Ok_inj in Hf as <-. split; [by intros ?%elem_of_nil|].
    intros [_ [(s & -> & Hs)|(l & x & -> & Hx & _)]].
    + unfold sanitize in Hs. rewrite Hv in Hs. congruence.
    + destruct l; [by apply elem_of_nil in Hx|done].
Qed.

Section tokens.
Context `{PyRuntime}.

Lemma elem_of_extract_tokens data tokens t :
  extract_tokens data = Ok tokens →
  t ∈ tokens ↔ t ≠ "" ∧ token_source data t.
Proof.
  unfold extract_tokens. intros Hex.
  destruct (rmap _ (map_to_list data)) as [found|] eqn:Hfound;
    bind_step Hex; [|done].
  match type of Hex with
  | mbind _ ?m = _ => destruct m as [extra|] eqn:Hextra; bind_step Hex; [|done]
  end.
  apply Ok_inj in Hex as <-.
  rewrite list_elem_of_filter, set_iter_perm, elem_of_elements,
    elem_of_list_to_set, elem_of_app.
  apply rmap_Ok_inv in Hfound.
  assert (t ≠ "" → t ∈ concat found ↔
          ∃ k v ts, data !! k = Some v ∧ field_tokens k v = Ok ts ∧ t ∈ ts)
    as Hconcat.
  { intros _. rewrite elem_of_concat. split.
    - intros (ts & Ht & Hts).
      destruct (proj1 (list_elem_of_lookup _ _) Hts) as [i Hi].
      destruct (Forall2_lookup_r _ _ _ _ _ Hfound Hi) as ([k v] & Hkv & Hf).
      apply list_elem_of_lookup_2, elem_of_map_to_list in Hkv. eauto 6.
    - intros (k & v & ts & Hkv%elem_of_map_to_list & Hf & Ht).
      destruct (proj1 (list_elem_of_lookup _ _) Hkv) as [i Hi].
      destruct (Forall2_lookup_l _ _ _ _ _ Hfound Hi) as (ts' & Hts' & Hf').
      simpl in Hf'. rewrite Hf in Hf'. apply Ok_inj in Hf' as <-.
      exists ts. split; [done|]. by eapply list_elem_of_lookup_2. }
  assert (t ∈ extra ↔
          ∃ xs x, py_iter (get data "extra_words") = Ok xs ∧
                  x ∈ xs ∧ atom_truthy x ∧ sanitize (VAtom x) = Ok t)
    as Hextra'.
  { destruct (truthy (get data "extra_words")) eqn:Htr.
    - destruct (py_iter (get data "extra_words")) as [xs|] eqn:Hit;
        bind_step Hextra; [|done].
      rewrite (elem_of_sanitize_each _ _ _ Hextra). split.
      + intros (x & ? & ? & ?). by exists xs, x.
      + intros (xs' & x & [= <-] & ? & ? & ?). eauto.
    - apply Ok_inj in Hextra as <-. split; [by intros ?%elem_of_nil|].
      intros (xs & x & Hit & Hx & _). exfalso.
      destruct (get data "extra_words") as [[| | |s]|l]; simpl in Hit; try done.
      + apply Ok_inj in Hit as <-. simpl in Htr.
        destruct s; [by apply elem_of_nil in Hx|done].
      + apply Ok_inj in Hit as <-. simpl in Htr.
        destruct l; [by apply elem_of_nil in Hx|done]. }
  unfold token_source. split.
  - intros [Ht [Hin|Hin]]; split; try done.
    + apply Hconcat in Hin as (k & v & ts & Hkv & Hf & Hts); [|done].
      apply (elem_of_field_tokens _ _ _ _ Hf Ht) in Hts
        as [Hk [(s & -> & Hs)|(l & x & -> & ? & ? & ?)]].
      * left. by exists k, s.
      * right; left. by exists k, l, x.
    + right; right. by apply Hextra'.
  - intros [Ht Hsrc]. split; [done|].
    destruct Hsrc
      as [(k & s & Hkv & Hk & Hs)|[(k & l & x & Hkv & Hk & ? & ? & ?)|Hsrc]].
    + left. apply Hconcat; [done|].
      destruct (field_tokens k (VStr s)) as [ts|e] eqn:Hf.
      * exists k, (VStr s), ts. split_and!; [done..|].
        apply (elem_of_field_tokens _ _ _ _ Hf Ht). split; [done|].
        left. by exists s.
      * apply elem_of_map_to_list in Hkv.
        exfalso. eapply rmap_not_raise; [apply Hfound|apply Hkv|apply Hf].
    + left. apply Hconcat; [done|].
      destruct (field_tokens k (VList l)) as [ts|e] eqn:Hf.
      * exists k, (VList l), ts. split_and!; [done..|].
        apply (elem_of_field_tokens _ _ _ _ Hf Ht). split; [done|].
        right. by exists l, x.
      * apply elem_of_map_to_list in Hkv.
        exfalso. eapply rmap_not_raise; [apply Hfound|apply Hkv|apply Hf].
    + right. by apply Hextra'.
Qed.

(** C4, as the code has it. The tokens are the non-empty sanitized
    values of the string fields and of the truthy elements of the list
    fields whose key is outside [skip_keys] (the six control fields and
    [extra_words], [important_years], [apps]), together with the
    sanitized truthy elements of [extra_words]. *)
Theorem extract_tokens_sources data tokens t :
  extract_tokens data = Ok tokens →
  t ∈ tokens ↔ t ≠ "" ∧ token_source data t.
Proof. apply elem_of_extract_tokens. Qed.





End tokens.

(** ** The date of birth *)

Lemma digits_sound n s ds r :
  Re.digits n s = Some (ds, r) →
  s = ds +:+ r ∧ String.length ds = n ∧ Str.forallb Char.is_digit ds.
Proof.
  revert s ds r. induction n as [|n IH]; intros s ds r; simpl.
  - by intros [= <- <-].
  - destruct s as [|c s]; [done|].
    destruct (Char.is_digit c) eqn:Hc; [|done].
    destruct (Re.digits n s) as [[ds' r']|] eqn:Hd; simpl; [|done].
    intros [= <- <-]. apply IH in Hd as (-> & <- & Hds').
    simpl. rewrite Hc. by split_and!.
Qed.

Lemma digits_complete ds r :
  Str.forallb Char.is_digit ds →
  Re.digits (String.length ds) (ds +:+ r) = Some (ds, r).
Proof.
  induction ds as [|c ds IH]; simpl; [done|].
  intros [Hc Hds]%andb_prop_elim.
  apply Is_true_true in Hc. rewrite Hc, (IH Hds). done.
Qed.

Lemma digits_spec n s ds r :
  Re.digits n s = Some (ds, r) ↔
  s = ds +:+ r ∧ String.length ds = n ∧ Str.forallb Char.is_digit ds.
Proof.
  split; [apply digits_sound|].
  intros (-> & <- & Hds). by apply digits_complete.
Qed.

Lemma lit_spec c s r : Re.lit c s = Some r ↔ s = String c r.
Proof.
  destruct s as [|c' s]; simpl; [done|].
  case_bool_decide; split; intros; simplify_eq; done.
Qed.

Lemma fullmatch_dob_spec s d m y :
  Re.fullmatch_dob s = Some (d, m, y) ↔
  s = d +:+ "/" +:+ m +:+ "/" +:+ y ∧
  String.length d = 2%nat ∧ String.length m = 2%nat ∧
  String.length y = 4%nat ∧
  Str.forallb Char.is_digit d ∧ Str.forallb Char.is_digit m ∧
  Str.forallb Char.is_digit y.
Proof.
  unfold Re.fullmatch_dob. split.
  - intros Hm.
    destruct (Re.digits 2 s) as [[d' r1]|] eqn:H1; cbn [mbind option_bind] in Hm; [|done].
    destruct (Re.lit "/" r1) as [r2|] eqn:H2; cbn [mbind option_bind] in Hm; [|done].
    destruct (Re.digits 2 r2) as [[m' r3]|] eqn:H3; cbn [mbind option_bind] in Hm; [|done].
    destruct (Re.lit "/" r3) as [r4|] eqn:H4; cbn [mbind option_bind] in Hm; [|done].
    destruct (Re.digits 4 r4) as [[y' r5]|] eqn:H5; cbn [mbind option_bind] in Hm; [|done].
    destruct r5; cbn [mbind option_bind] in Hm; [|done]. injection Hm as -> -> ->.
    apply digits_spec in H1 as (-> & ? & ?), H3 as (-> & ? & ?),
      H5 as (-> & ? & ?).
    apply lit_spec in H2 as ->, H4 as ->.
    rewrite app_empty_r. by split_and!.
  - intros (-> & Hd & Hm & Hy & Dd & Dm & Dy).
    pose proof (digits_complete d ("/" +:+ m +:+ "/" +:+ y) Dd) as H1.
    pose proof (digits_complete m ("/" +:+ y) Dm) as H2.
    pose proof (digits_complete y "" Dy) as H3.
    rewrite Hd in H1. rewrite Hm in H2. rewrite Hy, app_empty_r in H3.
    rewrite H1. cbn [mbind option_bind].
    change (Re.lit "/" ("/" +:+ m +:+ "/" +:+ y)) with (Some (m +:+ "/" +:+ y)).
    cbn [mbind option_bind]. rewrite H2. cbn [mbind option_bind].
    change (Re.lit "/" ("/" +:+ y)) with (Some y).
    cbn [mbind option_bind]. rewrite H3. done.
Qed.

Lemma parse_dob_Ok s p :
  parse_dob (VStr s) = Ok p →
  dob_shape s ∧ s = dd p +:+ "/" +:+ mm p +:+ "/" +:+ yyyy p ∧
  full p = dd p +:+ mm p +:+ yyyy p.
Proof.
  unfold parse_dob, py_or. simpl.
  destruct (negb (String.eqb s "")) eqn:Hs; simpl.
  - destruct (Re.fullmatch_dob s) as [[[d m] y]|] eqn:Hm; [|done].
    intros [= <-]. simpl. apply fullmatch_dob_spec in Hm as Hm'.
    split; [by exists d, m, y|]. by destruct Hm' as [-> _].
  - done.
Qed.



(** ** Exceptions of the generator *)

Lemma well_typed_get data k :
  well_typed data → k ∉ control_fields →
  is_text (get data k) ∨ ((k ∉ scalar_reads) ∧ is_text_list (get data k)).
Proof.
  intros Hwt Hk. unfold get. destruct (data !! k) as [v|] eqn:Hv; simpl.
  - by eapply Hwt.
  - by left.
Qed.

Lemma sanitize_text v : is_text v → ∃ t, sanitize v = Ok t.
Proof.
  unfold sanitize. destruct v as [[| | |s]|l]; simpl; try done; intros _.
  - by eexists.
  - destruct (negb _); by eexists.
Qed.

Lemma sanitize_each_text xs :
  Forall (fun a => ∃ s, a = AStr s) xs → ∃ ts, sanitize_each xs = Ok ts.
Proof.
  intros Hxs. apply rmap_total.
  apply Forall_forall. intros x [_ Hx]%list_elem_of_filter.
  rewrite Forall_forall in Hxs. destruct (Hxs x Hx) as [s ->].
  by apply sanitize_text.
Qed.

Lemma py_iter_text v :
  is_text v ∨ is_text_list v → truthy v = true →
  ∃ xs, py_iter v = Ok xs ∧ Forall (fun a => ∃ s, a = AStr s) xs.
Proof.
  intros [Hv|Hv] Htr.
  - destruct v as [[| | |s]|]; try done. eexists; split; [done|].
    apply Forall_fmap, Forall_forall. intros c _. by exists c.
  - destruct v as [|l]; [done|]. by exists l.
Qed.

Lemma field_tokens_text k v :
  (k ∉ control_fields → is_text v ∨ is_text_list v) →
  ∃ ts, field_tokens k v = Ok ts.
Proof.
  intros Hv. unfold field_tokens.
  case_bool_decide as Hk; simpl; [by eexists|].
  destruct (truthy v); simpl; [|by eexists].
  assert (k ∉ control_fields) as Hc.
  { intros Hin. apply Hk. revert Hin. unfold control_fields, skip_keys.
    rewrite !elem_of_list_to_set, !elem_of_cons. naive_solver. }
  destruct (Hv Hc) as [Ht|Ht].
  - destruct v as [[| | |s]|]; try done; [by eexists|].
    destruct (sanitize_text (VStr s) I) as [t ->]. by eexists.
  - destruct v as [|l]; [done|]. by apply sanitize_each_text.
Qed.

Section exceptions.
Context `{PyRuntime}.





Lemma not_control (k : string) :
  bool_decide (k ∉ control_fields) = true → k ∉ control_fields.
Proof. apply bool_decide_eq_true. Qed.

Lemma extract_tokens_total data :
  well_typed data → ∃ tokens, extract_tokens data = Ok tokens.
Proof.
  intros Hwt. unfold extract_tokens.
  destruct (rmap_total (fun kv => field_tokens kv.1 kv.2) (map_to_list data))
    as [found ->].
  { apply Forall_forall. intros [k v] Hkv%elem_of_map_to_list. simpl.
    apply field_tokens_text. intros Hk.
    destruct (Hwt k v Hkv Hk) as [?|[_ ?]]; auto. }
  cbn [mbind result_bind].
  destruct (truthy (get data "extra_words")) eqn:Htr.
  - destruct (py_iter_text (get data "extra_words")) as (xs & -> & Hxs);
      [|done|].
    { destruct (well_typed_get data "extra_words" Hwt) as [?|[_ ?]]; auto.
      by apply not_control. }
    cbn [mbind result_bind].
    destruct (sanitize_each_text xs Hxs) as [ts ->]. by eexists.
  - by eexists.
Qed.

Lemma get_years_total data :
  well_typed data → ∃ years, get_years data = Ok years.
Proof.
  intros Hwt. unfold get_years.
  destruct (truthy (get data "important_years")) eqn:Htr.
  - destruct (py_iter_text (get data "important_years")) as (xs & -> & Hxs);
      [|done|].
    { destruct (well_typed_get data "important_years" Hwt) as [?|[_ ?]]; auto.
      by apply not_control. }
    cbn [mbind result_bind].
    destruct (rmap_total
                (fun y => s ← py_str y; Ok (Str.last_n 4 (Str.strip s)))
                (filter (fun y => atom_truthy y) xs)) as [ys ->];
      [|by eexists].
    apply Forall_forall. intros x [_ Hx]%list_elem_of_filter.
    rewrite Forall_forall in Hxs. destruct (Hxs x Hx) as [s ->].
    by eexists.
  - by eexists.
Qed.

Lemma sanitize_scalar_total data k :
  well_typed data → bool_decide (k ∉ control_fields) = true →
  bool_decide (k ∈ scalar_reads) = true →
  is_text (get data k) ∧ ∃ t, sanitize (get data k) = Ok t.
Proof.
  intros Hwt Hc%bool_decide_eq_true Hs%bool_decide_eq_true.
  destruct (well_typed_get data k Hwt Hc) as [Ht|[? _]]; [|done].
  split; [done|]. by apply sanitize_text.
Qed.

Lemma accumulate_total data tokens count min_len max_len sp up :
  well_typed data →
  ∃ r, accumulate data tokens count min_len max_len sp up = Ok r.
Proof.
  intros Hwt. unfold accumulate.
  destruct (get_years_total data Hwt) as [ys ->]. cbn [mbind result_bind].
  destruct (sanitize_scalar_total data "lucky_number" Hwt) as [_ [n Hn]];
    [done..|].
  destruct (sanitize_scalar_total data "phone" Hwt) as [_ [ph Hph]];
    [done..|].
  destruct (sanitize_scalar_total data "full_name" Hwt) as [Hfn _]; [done..|].
  destruct (sanitize_scalar_total data "nickname" Hwt) as [Hnn _]; [done..|].
  destruct (sanitize_text
              (py_or (py_or (get data "full_name") (get data "nickname"))
                     (VStr ""))) as [name Hname].
  { unfold py_or.
    destruct (truthy (get data "full_name")), (truthy (get data "nickname"));
      simpl; repeat case_match; simpl; auto. }
  rewrite Hn, Hph, Hname.
  destruct (truthy (get data "lucky_number")), (truthy (get data "phone"));
    cbn [mbind result_bind]; destruct (bool_decide (name ≠ ""));
    cbn [andb mbind result_bind]; rewrite ?Hn; cbn [mbind result_bind];
    by eexists.
Qed.







End exceptions.

(** ** The name and date candidates *)

Section name_date.
Context `{PyRuntime}.

Lemma accumulate_keeps_name_date data tokens count min_len max_len sp up r p name d :
  accumulate data tokens count min_len max_len sp up = Ok r →
  dob_facts data = Some p →
  sanitize (py_or (py_or (get data "full_name") (get data "nickname"))
                  (VStr "")) = Ok name →
  name ≠ "" → d ∈ date_variants p →
  (admissible min_len max_len (name +:+ d) →
   (name +:+ d) +:+ WATERMARK ∈ r.1.1) ∧
  (admissible min_len max_len (d +:+ name) →
   (d +:+ name) +:+ WATERMARK ∈ r.1.1).
Proof.
  intros (numbers & name' & c0 & c1 & Hname' & Hc0 & Hc1 & ->)%accumulate_inv
    Hp Hname Hne Hd.
  rewrite Hname in Hname'. apply Ok_inj in Hname' as <-.
  rewrite Hp, bool_decide_eq_true_2 in Hc0 by done.
  assert (c0 ⊆ (fallback min_len max_len count tokens
                  (transform_stages min_len max_len sp up tokens numbers c1)
                  (seed SEED)).1.1) as Hsub.
  { etrans; [by eapply extends_subseteq|].
    etrans; [eapply extends_subseteq, extends_transform_stages|].
    eapply extends_subseteq, extends_fallback. }
  split; intros Hadm; apply Hsub; subst c0; apply elem_of_add_each; left.
  - exists (name +:+ d). split; [|done].
    apply list_elem_of_bind. exists d. split; [|done]. by left.
  - exists (d +:+ name). split; [|done].
    apply list_elem_of_bind. exists d. split; [|done]. right. by left.
Qed.

Lemma well_typed_john_smith : well_typed john_smith.
Proof.
  intros k v Hkv _. unfold john_smith in Hkv. cbn [list_to_map foldr] in Hkv.
  repeat (apply lookup_insert_Some in Hkv as [[<- <-]|[_ Hkv]];
          [simpl; auto|]); [|done].
  right. split; [compute_done|]. repeat constructor. by eexists.
Qed.

(** C6, as far as it holds under every iteration order and shuffle. For
    the payload of John Smith and the default parameters, the candidate
    set holds ["johnsmith1990--EDU"] when the output step begins, and
    the result is the first 1000 strings of the shuffled candidate
    set. *)
Theorem john_smith_candidates :
  ∃ tokens candidates rest g,
    extract_tokens john_smith = Ok tokens ∧
    accumulate john_smith tokens 1000 MIN_LEN_DEFAULT MAX_LEN_DEFAULT true true
      = Ok (candidates, rest, g) ∧
    dob_facts john_smith = Some john_smith_dob ∧
    "johnsmith1990--EDU" ∈ candidates ∧
    name_date_candidate "johnsmith" john_smith_dob "johnsmith1990--EDU" ∧
    generate_realistic john_smith 1000 MIN_LEN_DEFAULT MAX_LEN_DEFAULT true true
      = Ok (take 1000 (shuffle g (set_iter CandidateSet candidates)).1).
Proof.
  destruct (extract_tokens_total john_smith well_typed_john_smith)
    as [tokens Htok].
  destruct (accumulate_total john_smith tokens 1000
              MIN_LEN_DEFAULT MAX_LEN_DEFAULT true true well_typed_john_smith)
    as [[[c rest] g] Hacc].
  exists tokens, c, rest, g. split_and!; [done|done|by vm_compute| | |].
  - eapply (accumulate_keeps_name_date _ _ _ _ _ _ _ _ john_smith_dob
              "johnsmith" "1990" Hacc); [by vm_compute..|compute_done|].
    compute_done.
  - exists "1990". split; [compute_done|by left].
  - assert ("johnsmith" ∈ tokens) as Hin.
    { apply (elem_of_extract_tokens _ _ _ Htok). split; [done|].
      left. exists "full_name", "John Smith".
      split_and!; [by vm_compute|compute_done|by vm_compute]. }
    unfold generate_realistic. rewrite Htok. cbn [mbind result_bind].
    rewrite bool_decide_eq_false_2 by (intros ->; by apply elem_of_nil in Hin).
    rewrite Hacc. cbn [mbind result_bind].
    by destruct (shuffle g _).
Qed.

End name_date.

(** C6 as stated fails. Under [slash_first_runtime] the 1000 strings
    returned for the payload of John Smith all contain a slash, which no
    candidate made of the name and a date variant does. *)
Lemma john_smith_selection_misses :
  dob_facts john_smith = Some john_smith_dob ∧
  ∃ out,
    generate_realistic (H := slash_first_runtime) john_smith 1000
      MIN_LEN_DEFAULT MAX_LEN_DEFAULT true true = Ok out ∧
    length out = 1000%nat ∧
    Forall (fun x => str_in "/" x) out ∧
    ¬ ∃ x, x ∈ out ∧ name_date_candidate "johnsmith" john_smith_dob x.
Proof.
  split; [by vm_compute|].
  eexists. split; [by vm_compute|].
  match goal with |- length ?l = _ ∧ _ => set (out := l) end.
  assert (Forall (fun x => str_in "/" x) out) as Hall by compute_done.
  split_and!; [done|done|].
  intros (x & Hx & d & Hd & Hxd).
  rewrite Forall_forall in Hall. specialize (Hall x Hx). clear Hx.
  revert Hd Hall. unfold date_variants, john_smith_dob. simpl.
  rewrite !elem_of_cons, elem_of_nil.
  intros Hd. destruct Hxd as [-> | ->];
    destruct Hd as [->|[->|[->|[->|[->|[->|[->|[]]]]]]]]; by vm_compute.
Qed.

(** ** The permutation fallback *)

(** A call of [add] that admits nothing leaves the set one short of what
    the calls could have given. *)
Lemma size_add_each_rejected min_len max_len ws c p :
  p ∈ ws → ¬ admissible min_len max_len p →
  (size (add_each min_len max_len ws c) < size c + length ws)%nat.
Proof.
  intros Hp Hrej. revert c.
  induction ws as [|w ws IH]; intros c; [by apply elem_of_nil in Hp|].
  change (add_each min_len max_len (w :: ws) c)
    with (add_each min_len max_len ws (add min_len max_len w c)).
  apply elem_of_cons in Hp as [<-|Hp].
  - rewrite add_spec. rewrite decide_False by done.
    pose proof (size_add_each min_len max_len ws c). simpl. lia.
  - specialize (IH Hp (add min_len max_len w c)).
    pose proof (size_add min_len max_len w c). simpl. lia.
Qed.

Section fallback.
Context `{PyRuntime}.

(** The fallback as the code has it. When the candidate set is smaller
    than [count], the 2- and 3-token permutations are shuffled and the
    first [count - len(candidates)] of them are passed to [add], one call
    each, whether or not the call admits anything; the loop ends after
    that many calls or with the last permutation, and the set does not
    grow beyond [count]. *)
Lemma fallback_attempts min_len max_len count tokens c g :
  Z.of_nat (size c) < count →
  ∃ perms g',
    shuffle g (Str.join <$> (permutations 2 tokens ++ permutations 3 tokens))
      = (perms, g') ∧
    perms ≡ₚ Str.join <$> (permutations 2 tokens ++ permutations 3 tokens) ∧
    fallback min_len max_len count tokens c g
      = (add_each min_len max_len
           (take (Z.to_nat (count - Z.of_nat (size c))) perms) c,
         drop (Z.to_nat (count - Z.of_nat (size c))) perms, g') ∧
    Z.of_nat (size (fallback min_len max_len count tokens c g).1.1) ≤ count.
Proof.
  intros Hlt. unfold fallback.
  destruct (Z.ltb_spec 0 (count - Z.of_nat (size c))) as [_|?]; [|lia].
  pose proof (shuffle_perm g
    (Str.join <$> (permutations 2 tokens ++ permutations 3 tokens))) as Hperm.
  destruct (shuffle g _) as [perms g']. simpl in Hperm.
  exists perms, g'. rewrite fallback_loop_take_drop.
  split_and!; [done..|]. simpl.
  pose proof (size_add_each min_len max_len
    (take (Z.to_nat (count - Z.of_nat (size c))) perms) c) as [_ Hsize].
  rewrite length_take in Hsize. lia.
Qed.

(** One rejected permutation among the first [count - len(candidates)]
    leaves the candidate set below [count], and the loop still stops
    there: the permutations behind them are not consumed. *)
Lemma fallback_short min_len max_len count tokens c g p :
  Z.of_nat (size c) < count →
  p ∈ take (Z.to_nat (count - Z.of_nat (size c)))
        (shuffle g (Str.join <$> (permutations 2 tokens ++ permutations 3 tokens))).1 →
  ¬ admissible min_len max_len p →
  Z.of_nat (size (fallback min_len max_len count tokens c g).1.1) < count ∧
  (fallback min_len max_len count tokens c g).1.2
  = drop (Z.to_nat (count - Z.of_nat (size c)))
      (shuffle g (Str.join <$> (permutations 2 tokens ++ permutations 3 tokens))).1.
Proof.
  intros Hlt Hp Hrej.
  destruct (fallback_attempts min_len max_len count tokens c g Hlt)
    as (perms & g' & Hsh & _ & -> & _).
  rewrite Hsh in Hp |- *. simpl in Hp |- *. split; [|done].
  pose proof (size_add_each_rejected min_len max_len _ c p Hp Hrej) as Hsize.
  rewrite length_take in Hsize. lia.
Qed.

End fallback.

(** C3. The fallback does not fill the shortfall it computes. Under every
    runtime, one permutation that [add] rejects among the first
    [count - len(candidates)] shuffled ones leaves the candidate set
    below [count], and the loop stops there with the permutations behind
    them unconsumed.  For the tokens ["ab"], ["cd"] and ["efg"], two
    strings of exactly seven characters requested and a shuffle that
    leaves the list as it is, both calls are spent on permutations of
    two tokens, which are too short: the candidate set stays empty and
    the result is empty, while the six permutations of three tokens,
    all admissible, are among the ten left unconsumed. *)
Theorem fallback_underfills :
  (∀ (R : PyRuntime) min_len max_len count tokens c g p,
     Z.of_nat (size c) < count →
     p ∈ take (Z.to_nat (count - Z.of_nat (size c)))
           (shuffle g
              (Str.join <$> (permutations 2 tokens ++ permutations 3 tokens))).1 →
     ¬ admissible min_len max_len p →
     Z.of_nat (size (fallback min_len max_len count tokens c g).1.1) < count ∧
     (fallback min_len max_len count tokens c g).1.2
     = drop (Z.to_nat (count - Z.of_nat (size c)))
         (shuffle g
            (Str.join <$> (permutations 2 tokens ++ permutations 3 tokens))).1) ∧
  extract_tokens (H := stable_runtime) three_names = Ok ["cd"; "efg"; "ab"] ∧
  accumulate (H := stable_runtime) three_names ["cd"; "efg"; "ab"] 2 7 7 true true
    = Ok (∅, [ "efgcd"; "efgab"; "abcd"; "abefg";
               "cdefgab"; "cdabefg"; "efgcdab"; "efgabcd"; "abcdefg"; "abefgcd" ],
          tt) ∧
  generate_realistic (H := stable_runtime) three_names 2 7 7 true true = Ok [] ∧
  Forall (admissible 7 7)
    [ "cdefgab"; "cdabefg"; "efgcdab"; "efgabcd"; "abcdefg"; "abefgcd" ] ∧
  size (add_each 7 7
          [ "cdefgab"; "cdabefg"; "efgcdab"; "efgabcd"; "abcdefg"; "abefgcd" ]
          ∅) = 6%nat.
Proof.
  split_and!.
  - intros R. apply fallback_short.
  - by vm_compute.
  - by vm_compute.
  - by vm_compute.
  - repeat constructor; compute_done.
  - by vm_compute.
Qed.

(** ** Case variants *)

Lemma get_map f i s : String.get i (Str.map f s) = f <$> String.get i s.
Proof.
  revert i. induction s as [|c s IH]; intros i; simpl; [done|].
  destruct i; simpl; [done|apply IH].
Qed.

Lemma length_map f s : String.length (Str.map f s) = String.length s.
Proof. induction s as [|c s IH]; simpl; [done|by rewrite IH]. Qed.

(** C5, as the code has it. With [include_upper] set, the third variant
    of an ASCII token is [token.capitalize()]: as long as the token, its
    first character upper-cased and every other character lower-cased. *)
Theorem case_variants_capitalized token :
  Str.isascii token →
  ∃ v, case_variants token true !! 2%nat = Some v ∧
       String.length v = String.length token ∧
       String.get 0 v = Char.upper <$> String.get 0 token ∧
       ∀ i, (0 < i)%nat → String.get i v = Char.lower <$> String.get i token.
Proof.
  intros _. exists (Str.capitalize token). split_and!; [done| | |].
  - destruct token; simpl; [done|]. unfold Str.lower. by rewrite length_map.
  - by destruct token.
  - intros i Hi. destruct token as [|c s]; simpl; [by destruct i|].
    destruct i; [lia|]. apply get_map.
Qed.

(** C5 as stated fails. The capitalized variant of ["aBc"] is ["Abc"];
    the token with only its first letter upper-cased, ["ABc"], is not
    among the variants. *)
Lemma capitalize_lowers_the_rest :
  case_variants "aBc" true !! 2%nat = Some "Abc" ∧
  "Abc" ≠ String (Char.upper "a") "Bc" ∧
  (String (Char.upper "a") "Bc" ∉ case_variants "aBc" true).
Proof. split_and!; [done|done|compute_done]. Qed.

(** ** Leet variants *)

Lemma dict_get_leet_str c default : dict_get leet_table (KStr c) default = default.
Proof. done. Qed.

Lemma app_cons a x y : String a x +:+ y = String a (x +:+ y).
Proof. done. Qed.

Lemma drop_app_length pre x : Str.drop (String.length pre) (pre +:+ x) = x.
Proof.
  induction pre as [|a pre IH]; [by destruct x|].
  rewrite app_cons. cbn [String.length Str.drop]. apply IH.
Qed.

Lemma take_drop_char pre c s :
  Str.take (String.length pre) (pre +:+ String c s) +:+
    String c "" +:+ Str.drop (S (String.length pre)) (pre +:+ String c s)
  = pre +:+ String c s.
Proof.
  rewrite take_app_length.
  assert (Str.drop (S (String.length pre)) (pre +:+ String c s) = s) as ->.
  { pose proof (drop_app_length (pre +:+ String c "") s) as Hd.
    rewrite length_app in Hd. simpl in Hd.
    replace (String.length pre + 1)%nat with (S (String.length pre)) in Hd
      by lia.
    rewrite <- Hd at 2. f_equal.
    clear. induction pre as [|a pre IH]; [done|].
    rewrite !app_cons. by rewrite IH. }
  done.
Qed.

(** Every single-substitution variant is the token itself. *)
Lemma leet_singles_from pre s :
  (ic ← zip (seq (String.length pre) (length (Str.chars s))) (Str.chars s);
   if str_in (Str.lower ic.2) "aeiostgb"
   then [Str.take ic.1 (pre +:+ s) +:+
         dict_get leet_table (KStr ic.2) ic.2 +:+
         Str.drop (S ic.1) (pre +:+ s)]
   else [])
  = replicate
      (length (filter (fun c => str_in (Str.lower c) "aeiostgb") (Str.chars s)))
      (pre +:+ s).
Proof.
  revert pre. induction s as [|c s IH]; intros pre; [done|].
  assert (pre +:+ String c s = (pre +:+ String c "") +:+ s) as Hsnoc.
  { clear. induction pre as [|a pre IH]; [done|].
    change (String a pre +:+ ?x) with (String a (pre +:+ x)).
    change (String a (pre +:+ String c "") +:+ s)
      with (String a ((pre +:+ String c "") +:+ s)). by rewrite IH. }
  specialize (IH (pre +:+ String c "")).
  rewrite length_app in IH.
  change (String.length (String c "")) with 1%nat in IH.
  replace (String.length pre + 1)%nat with (S (String.length pre)) in IH by lia.
  rewrite <- Hsnoc in IH.
  cbn [Str.chars length seq zip zip_with mbind list_bind].
  rewrite filter_cons. cbn [fst snd].
  rewrite dict_get_leet_str, take_drop_char.
  etrans; [apply (f_equal (app _)), IH|].
  by destruct (str_in (Str.lower (String c "")) "aeiostgb").
Qed.

Lemma leet_variants_singles token :
  leet_variants token =
  translate leet_table token ::
  replicate
    (length (filter (fun c => str_in (Str.lower c) "aeiostgb") (Str.chars token)))
    token.
Proof.
  pose proof (leet_singles_from "" token) as Hs.
  change ("" +:+ token) with token in Hs.
  change (String.length "") with O in Hs.
  unfold leet_variants, enumerate. f_equal. rewrite <- Hs.
  apply list_bind_ext; [|done]. by intros [i c].
Qed.

(** C2, at the base ["password"]. [leet_variants] yields the fully
    substituted ["p455w0rd"] and then, for each of the four substitutable
    characters, the base itself: the table built by [str.maketrans] is
    keyed by ordinals, so [table.get(c, c)] finds no entry for the
    character and returns it unchanged.  None of the single
    substitutions the claim describes is among the variants. *)
Theorem leet_variants_password :
  leet_variants "password"
    = ["p455w0rd"; "password"; "password"; "password"; "password"] ∧
  ("p4ssword" ∉ leet_variants "password") ∧
  ("pa5sword" ∉ leet_variants "password") ∧
  ("pas5word" ∉ leet_variants "password") ∧
  ("passw0rd" ∉ leet_variants "password").
Proof.
  rewrite leet_variants_singles. split_and!; [done|compute_done..].
Qed.

(** ** The claims at concrete payloads *)

(** C7 as stated fails for a negative [count]: [final[:-1]] drops the
    last candidate only.  For Ann Lee with [count = -1] and the bounds
    8 and 8 the result has one string. *)
Lemma negative_count_exceeds :
  generate_realistic (H := stable_runtime) ann_lee (-1) 8 8 false false
    = Ok ["annleebo--EDU"] ∧
  ¬ (Z.of_nat (length ["annleebo--EDU"]) ≤ Z.min (-1) MAX_OUTPUT).
Proof. split; [by vm_compute|]. unfold MAX_OUTPUT. simpl. lia. Qed.

(** C4 as stated fails: [important_years] is not a control field, its
    value is a non-empty sequence of non-empty strings, and no token is
    extracted from it. *)
Lemma important_years_not_extracted :
  ("important_years" ∉ control_fields) ∧
  only_years !! "important_years" = Some (VList [AStr "2001"]) ∧
  sanitize (VStr "2001") = Ok "2001" ∧
  extract_tokens (H := stable_runtime) only_years = Ok [] ∧
  ("2001" ∉ ([] : list string)).
Proof.
  split_and!; [compute_done|by vm_compute|by vm_compute|by vm_compute|].
  apply not_elem_of_nil.
Qed.

Lemma case_variants_capitalized_witness :
  Str.isascii "aBc" ∧
  ∃ v, case_variants "aBc" true !! 2%nat = Some v ∧
       String.length v = String.length "aBc" ∧
       String.get 0 v = Char.upper <$> String.get 0 "aBc" ∧
       ∀ i, (0 < i)%nat → String.get i v = Char.lower <$> String.get i "aBc".
Proof.
  assert (Str.isascii "aBc") as Ha by (vm_compute; exact I).
  exact (conj Ha (case_variants_capitalized "aBc" Ha)).
Defined.


Lemma generate_realistic_marked_witness :
  generate_realistic (H := stable_runtime) ann_lee 5 8 8 false false
    = Ok ["annleebo--EDU"; "boannlee--EDU"; "4nnl3380--EDU"] ∧
  "boannlee--EDU" ∈ ["annleebo--EDU"; "boannlee--EDU"; "4nnl3380--EDU"] ∧
  "boannlee--EDU" = unmark "boannlee--EDU" +:+ WATERMARK ∧
  8 ≤ Str.len (unmark "boannlee--EDU") ≤ 8.
Proof.
  assert (generate_realistic (H := stable_runtime) ann_lee 5 8 8 false false
          = Ok ["annleebo--EDU"; "boannlee--EDU"; "4nnl3380--EDU"]) as Hgen
    by (vm_compute; reflexivity).
  assert ("boannlee--EDU" ∈ ["annleebo--EDU"; "boannlee--EDU"; "4nnl3380--EDU"])
    as Hin by (right; left).
  exact (conj Hgen (conj Hin
    (generate_realistic_marked _ _ _ _ _ _ _ _ Hgen Hin))).
Defined.

Lemma generate_realistic_NoDup_witness :
  generate_realistic (H := stable_runtime) ann_lee 5 8 8 false false
    = Ok ["annleebo--EDU"; "boannlee--EDU"; "4nnl3380--EDU"] ∧
  NoDup ["annleebo--EDU"; "boannlee--EDU"; "4nnl3380--EDU"].
Proof.
  assert (generate_realistic (H := stable_runtime) ann_lee 5 8 8 false false
          = Ok ["annleebo--EDU"; "boannlee--EDU"; "4nnl3380--EDU"]) as Hgen
    by (vm_compute; reflexivity).
  exact (conj Hgen (generate_realistic_NoDup _ _ _ _ _ _ _ Hgen)).
Defined.

Lemma generate_realistic_length_witness :
  0 ≤ 2 ∧
  generate_realistic (H := stable_runtime) ann_lee 2 8 8 false false
    = Ok ["annleebo--EDU"; "4nnl3380--EDU"] ∧
  Z.of_nat (length ["annleebo--EDU"; "4nnl3380--EDU"]) ≤ Z.min 2 MAX_OUTPUT.
Proof.
  assert (0 ≤ 2) as Hcount by lia.
  assert (generate_realistic (H := stable_runtime) ann_lee 2 8 8 false false
          = Ok ["annleebo--EDU"; "4nnl3380--EDU"]) as Hgen
    by (vm_compute; reflexivity).
  exact (conj Hcount (conj Hgen
    (generate_realistic_length _ _ _ _ _ _ _ Hcount Hgen))).
Defined.

Lemma generate_realistic_no_tokens_witness :
  extract_tokens (H := stable_runtime) only_years = Ok [] ∧
  generate_realistic (H := stable_runtime) only_years 10
    MIN_LEN_DEFAULT MAX_LEN_DEFAULT true true = Ok [].
Proof.
  assert (extract_tokens (H := stable_runtime) only_years = Ok []) as Htok
    by (vm_compute; reflexivity).
  exact (conj Htok (generate_realistic_no_tokens _ _ _ _ _ _ Htok)).
Defined.

Lemma extract_tokens_sources_witness :
  extract_tokens (H := stable_runtime) ann_lee = Ok ["annlee"; "bo"] ∧
  ("annlee" ∈ ["annlee"; "bo"] ↔ "annlee" ≠ "" ∧ token_source ann_lee "annlee").
Proof.
  assert (extract_tokens (H := stable_runtime) ann_lee = Ok ["annlee"; "bo"])
    as Htok by (vm_compute; reflexivity).
  exact (conj Htok (extract_tokens_sources _ _ "annlee" Htok)).
Defined.

(** * Further properties of the generator *)

(** ** The accumulator and the output step *)

(** X4. [add] is idempotent and the order of two calls does not matter. *)
Theorem add_idempotent_commutative min_len max_len w1 w2 c :
  add min_len max_len w1 (add min_len max_len w1 c) = add min_len max_len w1 c ∧
  add min_len max_len w1 (add min_len max_len w2 c)
    = add min_len max_len w2 (add min_len max_len w1 c).
Proof.
  rewrite !add_spec. split; repeat case_decide; set_solver.
Qed.

(** [itertools.combinations(l, 2)] yields the pairs of an earlier and a
    later element. *)
Lemma elem_of_combinations2 {A : Type} (l : list A) (a b : A) (i j : nat) :
  l !! i = Some a → l !! j = Some b → (i < j)%nat →
  (a, b) ∈ combinations2 l.
Proof.
  revert i j. induction l as [|x l IH]; intros i j Hi Hj Hij; [done|].
  simpl. apply elem_of_app. destruct i as [|i].
  - left. injection Hi as ->. destruct j as [|j]; [lia|].
    apply list_elem_of_fmap. exists b. split; [done|].
    by eapply list_elem_of_lookup_2.
  - right. destruct j as [|j]; [lia|].
    apply (IH i j); [done|done|lia].
Qed.

Section further.
Context `{PyRuntime}.

(** X1. No string that [generate_realistic] returns is, without its marker,
    an entry of the blacklist. *)
Theorem generate_realistic_not_blacklisted data count min_len max_len sp up out x :
  generate_realistic data count min_len max_len sp up = Ok out →
  x ∈ out →
  unmark x ∉ COMMON_BLACKLIST.
Proof.
  intros [[_ ->]|(tokens & c & rest & g & _ & _ & Hacc & ->)]%generate_realistic_inv Hx.
  - by apply elem_of_nil in Hx.
  - apply elem_of_output in Hx.
    apply extends_accumulate in Hacc.
    destruct (extends_empty_admitted _ _ _ _ Hacc Hx) as (w & -> & _ & Hbl).
    by rewrite unmark_marked.
Qed.

(** X2. For a count that is not negative the output is as long as it can
    be: [min(count, 5000)] strings when the candidate set has that many,
    otherwise the whole set. *)
Theorem generate_realistic_length_exact data count min_len max_len sp up out :
  0 ≤ count →
  generate_realistic data count min_len max_len sp up = Ok out →
  (extract_tokens data = Ok [] ∧ out = []) ∨
  ∃ tokens candidates rest g,
    extract_tokens data = Ok tokens ∧ tokens ≠ [] ∧
    accumulate data tokens count min_len max_len sp up
      = Ok (candidates, rest, g) ∧
    Z.of_nat (length out)
      = Z.min (Z.min count MAX_OUTPUT) (Z.of_nat (size candidates)) ∧
    ∀ x, x ∈ out → x ∈ candidates.
Proof.
  intros Hcount
    [?|(tokens & c & rest & g & Htok & Hne & Hacc & ->)]%generate_realistic_inv;
    [by left|right].
  exists tokens, c, rest, g. split_and!; [done..| |].
  - destruct (output_sublist (Z.min count MAX_OUTPUT) g c)
      as (n & -> & Hn & Hperm).
    rewrite length_take, Hn by (unfold MAX_OUTPUT; lia).
    rewrite Hperm. change (length (elements c)) with (size c).
    unfold MAX_OUTPUT. lia.
  - intros x. apply elem_of_output.
Qed.

Lemma transform_stages_keeps_pairs min_len max_len sp up tokens numbers c a b w :
  (a, b) ∈ combinations2 tokens →
  w ∈ [a +:+ b; a +:+ "." +:+ b; a +:+ "_" +:+ b] →
  admissible min_len max_len w →
  w +:+ WATERMARK ∈ transform_stages min_len max_len sp up tokens numbers c.
Proof.
  intros Hab Hw Hadm. unfold transform_stages.
  set (c1 := add_each min_len max_len _ c).
  assert (w +:+ WATERMARK ∈ c1) as Hc1.
  { apply elem_of_add_each. left. exists w. split; [|done].
    apply list_elem_of_bind. by exists (a, b). }
  assert (∀ c', extends min_len max_len c1 c' → w +:+ WATERMARK ∈ c') as Hext.
  { intros c' Hc'. by apply (extends_subseteq _ _ _ _ Hc'). }
  apply Hext.
  repeat first
    [ apply extends_refl
    | eapply extends_trans; [|apply extends_stage]
    | match goal with |- context [if ?b then _ else _] => destruct b end ].
Qed.

(** X5. Every concatenation of an earlier and a later token, plain or joined
    by a dot or an underscore, that [add] admits is in the candidate set
    when the output step begins. *)
Theorem accumulate_keeps_pairs data tokens count min_len max_len sp up r i j a b w :
  accumulate data tokens count min_len max_len sp up = Ok r →
  tokens !! i = Some a → tokens !! j = Some b → (i < j)%nat →
  w ∈ [a +:+ b; a +:+ "." +:+ b; a +:+ "_" +:+ b] →
  admissible min_len max_len w →
  w +:+ WATERMARK ∈ r.1.1.
Proof.
  intros (numbers & name & c0 & c1 & _ & _ & _ & ->)%accumulate_inv
    Hi Hj Hij Hw Hadm.
  eapply extends_subseteq; [apply extends_fallback|].
  eapply transform_stages_keeps_pairs; [|done..].
  by eapply elem_of_combinations2.
Qed.

End further.

(** ** Sanitized text *)

Lemma rev_app_app s a b :
  String.rev_app (String.rev_app s a) b = String.rev_app a (s +:+ b).
Proof.
  revert a b. induction s as [|c s IH]; intros a b; [done|].
  simpl. rewrite IH. simpl. by rewrite app_cons.
Qed.

Lemma rev_rev s : String.rev (String.rev s) = s.
Proof. unfold String.rev. rewrite rev_app_app. simpl. apply app_empty_r. Qed.

Lemma forallb_rev_app p s a :
  Str.forallb p s → Str.forallb p a → Str.forallb p (String.rev_app s a).
Proof.
  revert a. induction s as [|c s IH]; intros a; simpl; [done|].
  intros [Hc Hs]%andb_prop_elim Ha. apply IH; [done|].
  simpl. by apply andb_prop_intro.
Qed.

Lemma lstrip_no_space s :
  Str.forallb (fun c => negb (Char.is_space c)) s → Str.lstrip s = s.
Proof.
  destruct s as [|c s]; simpl; [done|].
  intros [Hc _]%andb_prop_elim. by destruct (Char.is_space c).
Qed.

Lemma strip_no_space s :
  Str.forallb (fun c => negb (Char.is_space c)) s → Str.strip s = s.
Proof.
  intros Hs. unfold Str.strip. rewrite (lstrip_no_space s Hs).
  rewrite lstrip_no_space; [apply rev_rev|].
  by apply forallb_rev_app.
Qed.

Lemma forallb_filter p s : Str.forallb p (Str.filter p s).
Proof.
  induction s as [|c s IH]; simpl; [done|].
  destruct (p c) eqn:Hc; simpl; [|done]. rewrite Hc. done.
Qed.

Lemma filter_id p s : Str.forallb p s → Str.filter p s = s.
Proof.
  induction s as [|c s IH]; simpl; [done|].
  intros [Hc Hs]%andb_prop_elim. apply Is_true_true in Hc. rewrite Hc.
  by rewrite IH.
Qed.

Lemma length_filter p s : (String.length (Str.filter p s) ≤ String.length s)%nat.
Proof.
  induction s as [|c s IH]; simpl; [done|]. destruct (p c); simpl; lia.
Qed.

Lemma is_space_lower c : Char.is_space (Char.lower c) = Char.is_space c.
Proof. by destruct c as [[] [] [] [] [] [] [] []]. Qed.

Lemma is_upper_lower c : Char.is_upper (Char.lower c) = false.
Proof. by destruct c as [[] [] [] [] [] [] [] []]. Qed.

Lemma lower_not_upper c : Char.is_upper c = false → Char.lower c = c.
Proof. unfold Char.lower. by intros ->. Qed.

Lemma forallb_lower_space s :
  Str.forallb (fun c => negb (Char.is_space c)) s →
  Str.forallb (fun c => negb (Char.is_space c)) (Str.lower s).
Proof.
  induction s as [|c s IH]; simpl; [done|].
  intros [Hc Hs]%andb_prop_elim. rewrite is_space_lower.
  apply andb_prop_intro. auto.
Qed.

Lemma forallb_lower_upper s :
  Str.forallb (fun c => negb (Char.is_upper c)) (Str.lower s).
Proof.
  induction s as [|c s IH]; simpl; [done|]. by rewrite is_upper_lower.
Qed.

Lemma lower_id s :
  Str.forallb (fun c => negb (Char.is_upper c)) s → Str.lower s = s.
Proof.
  induction s as [|c s IH]; simpl; [done|].
  intros [Hc Hs]%andb_prop_elim. unfold Str.lower in *. simpl.
  rewrite IH by done. rewrite lower_not_upper; [done|].
  by destruct (Char.is_upper c).
Qed.

(** Text without white space and without upper-case letters. *)
Definition clean (t : string) : Prop :=
  Str.forallb (fun c => negb (Char.is_space c)) t ∧
  Str.forallb (fun c => negb (Char.is_upper c)) t.

Lemma sanitize_str s :
  sanitize (VStr s)
  = Ok (Str.lower (Str.filter (fun c => negb (Char.is_space c)) s)).
Proof.
  unfold sanitize. simpl. destruct s as [|c s]; [done|]. simpl negb. cbv iota.
  by rewrite strip_no_space by apply forallb_filter.
Qed.

Lemma sanitize_str_spec s t :
  sanitize (VStr s) = Ok t →
  clean t ∧ (String.length t ≤ String.length s)%nat ∧ sanitize (VStr t) = Ok t.
Proof.
  rewrite sanitize_str. intros [= <-].
  set (f := Str.filter _ s).
  assert (Str.forallb (fun c => negb (Char.is_space c)) f) as Hf
    by apply forallb_filter.
  split_and!.
  - split; [by apply forallb_lower_space|apply forallb_lower_upper].
  - unfold Str.lower. rewrite length_map. apply length_filter.
  - rewrite sanitize_str.
    rewrite filter_id by by apply forallb_lower_space.
    by rewrite lower_id by apply forallb_lower_upper.
Qed.

Lemma is_ascii_lower c : Char.is_ascii (Char.lower c) = Char.is_ascii c.
Proof. by destruct c as [[] [] [] [] [] [] [] []]. Qed.

Lemma isascii_lower s : Str.isascii s → Str.isascii (Str.lower s).
Proof.
  unfold Str.isascii, Str.lower.
  induction s as [|c s IH]; simpl; [done|].
  intros [Hc Hs]%andb_prop_elim. rewrite is_ascii_lower.
  apply andb_prop_intro. auto.
Qed.

Lemma isascii_filter p s : Str.isascii s → Str.isascii (Str.filter p s).
Proof.
  unfold Str.isascii.
  induction s as [|c s IH]; simpl; [done|].
  intros [Hc Hs]%andb_prop_elim.
  destruct (p c); simpl; [apply andb_prop_intro|]; auto.
Qed.

(** X6. [sanitize] on an ASCII string: the result is ASCII, it has no
    white space and no upper-case letter, it is no longer than the
    argument, and sanitizing it again changes nothing. *)
Theorem sanitize_clean_idempotent s t :
  Str.isascii s →
  sanitize (VStr s) = Ok t →
  Str.isascii t ∧ clean t ∧ (String.length t ≤ String.length s)%nat ∧
  sanitize (VStr t) = Ok t.
Proof.
  intros Hs Ht. split; [|by apply sanitize_str_spec].
  rewrite sanitize_str in Ht. apply Ok_inj in Ht as <-.
  by apply isascii_lower, isascii_filter.
Qed.


Section tokens_further.
Context `{PyRuntime}.


End tokens_further.

(** ** Dates and years *)

Lemma parse_dob_iff s p :
  parse_dob (VStr s) = Ok p ↔
  s = dd p +:+ "/" +:+ mm p +:+ "/" +:+ yyyy p ∧
  full p = dd p +:+ mm p +:+ yyyy p ∧
  String.length (dd p) = 2%nat ∧ String.length (mm p) = 2%nat ∧
  String.length (yyyy p) = 4%nat ∧
  Str.forallb Char.is_digit (dd p) ∧ Str.forallb Char.is_digit (mm p) ∧
  Str.forallb Char.is_digit (yyyy p).
Proof.
  split.
  - intros Hp. destruct (parse_dob_Ok s p Hp) as (_ & Hs & Hfull).
    revert Hp. unfold parse_dob, py_or. simpl.
    destruct (negb (String.eqb s "")); simpl; [|done].
    destruct (Re.fullmatch_dob s) as [[[d m] y]|] eqn:Hm; [|done].
    intros [= <-]. simpl in *.
    apply fullmatch_dob_spec in Hm as (_ & ? & ? & ? & ? & ? & ?). done.
  - intros (Hs & Hfull & Hd & Hm & Hy & Dd & Dm & Dy).
    assert (Re.fullmatch_dob s = Some (dd p, mm p, yyyy p)) as Hmatch
      by (by apply fullmatch_dob_spec).
    unfold parse_dob, py_or. simpl.
    destruct (negb (String.eqb s "")) eqn:Hne; simpl.
    + rewrite Hmatch. destruct p; simpl in *. by rewrite Hfull.
    + apply negb_false_iff, String.eqb_eq in Hne. subst s.
      by destruct (dd p).
Qed.

(** X8. On an ASCII string [parse_dob] succeeds exactly on [dd/mm/yyyy]
    with two, two and four digits, and then returns these parts with
    [full] their concatenation: the string is recovered from the
    parts. *)
Theorem parse_dob_parts s p :
  Str.isascii s →
  (parse_dob (VStr s) = Ok p ↔
   s = dd p +:+ "/" +:+ mm p +:+ "/" +:+ yyyy p ∧
   full p = dd p +:+ mm p +:+ yyyy p ∧
   String.length (dd p) = 2%nat ∧ String.length (mm p) = 2%nat ∧
   String.length (yyyy p) = 4%nat ∧
   Str.forallb Char.is_digit (dd p) ∧ Str.forallb Char.is_digit (mm p) ∧
   Str.forallb Char.is_digit (yyyy p)).
Proof. intros _. apply parse_dob_iff. Qed.

Lemma parse_dob_Ok_str v p : parse_dob v = Ok p → ∃ s, v = VStr s.
Proof.
  unfold parse_dob, py_or. destruct (truthy v) eqn:Hv.
  - destruct v as [[| | |s]|l]; try done. by eexists.
  - done.
Qed.

Lemma size_list_to_set_le (l : list string) :
  (size (list_to_set l : gset string) ≤ length l)%nat.
Proof.
  induction l as [|x l IH]; [done|].
  cbn [list_to_set length].
  rewrite size_union_alt, size_singleton.
  assert (size (list_to_set l ∖ {[x]} : gset string)
          ≤ size (list_to_set l : gset string))%nat
    by (apply subseteq_size; set_solver).
  lia.
Qed.

(** X9. For a parsed date the first two of the seven variants are the same
    string, so a date gives at most six distinct variants. *)
Theorem date_variants_of_parsed v p :
  parse_dob v = Ok p →
  length (date_variants p) = 7%nat ∧
  date_variants p !! 0%nat = Some (dd p +:+ mm p +:+ yyyy p) ∧
  date_variants p !! 1%nat = Some (dd p +:+ mm p +:+ yyyy p) ∧
  (size (list_to_set (date_variants p) : gset string) ≤ 6)%nat.
Proof.
  intros Hp. destruct (parse_dob_Ok_str v p Hp) as [s ->].
  apply parse_dob_iff in Hp as (_ & Hfull & _).
  split_and!; [done|simpl; by rewrite Hfull|done|].
  unfold date_variants. rewrite Hfull.
  match goal with
  | |- (size (list_to_set (?x :: ?x :: ?l)) ≤ _)%nat =>
      replace (list_to_set (x :: x :: l) : gset string)
        with (list_to_set (x :: l) : gset string)
        by (simpl; set_solver);
      apply (size_list_to_set_le (x :: l))
  end.
Qed.

Lemma length_drop n s :
  String.length (Str.drop n s) = (String.length s - n)%nat.
Proof.
  revert s. induction n as [|n IH]; intros s; simpl.
  - destruct s; simpl; lia.
  - destruct s as [|c s]; simpl; [done|apply IH].
Qed.

Lemma length_take_str n s :
  String.length (Str.take n s) = (n `min` String.length s)%nat.
Proof.
  revert s. induction n as [|n IH]; intros s; simpl; [done|].
  destruct s as [|c s]; simpl; [done|]. by rewrite IH.
Qed.

Lemma length_last_n k s : (String.length (Str.last_n k s) ≤ k)%nat.
Proof. unfold Str.last_n. rewrite length_drop. lia. Qed.

Section years.
Context `{PyRuntime}.

(** X10. [get_years] returns no year twice, no year longer than four
    characters, and the year of the date of birth whenever the date
    parses. *)
Theorem get_years_short_distinct data ys :
  get_years data = Ok ys →
  NoDup ys ∧
  (∀ y, y ∈ ys → (String.length y ≤ 4)%nat) ∧
  (∀ p, dob_facts data = Some p → yyyy p ∈ ys).
Proof.
  unfold get_years, dob_facts. intros Hy.
  match type of Hy with
  | mbind _ ?m = _ => destruct m as [years|] eqn:Hm; bind_step Hy; [|done]
  end.
  apply Ok_inj in Hy as <-.
  set (years0 := if truthy (get data "dob") then _ else _) in Hm.
  assert (∀ y, y ∈ years0 →
            ∃ p, parse_dob (get data "dob") = Ok p ∧ y = yyyy p) as H0.
  { subst years0. intros y. destruct (truthy (get data "dob")); [|set_solver].
    destruct (parse_dob (get data "dob")) as [p|]; [|set_solver].
    rewrite elem_of_set_add. intros [->|?]; [by exists p|set_solver]. }
  assert (∀ p, truthy (get data "dob") = true →
               parse_dob (get data "dob") = Ok p → yyyy p ∈ years0) as H1.
  { subst years0. intros p -> ->. apply elem_of_set_add. by left. }
  assert (years0 ⊆ years ∧
          ∀ y, y ∈ years → y ∈ years0 ∨ (String.length y ≤ 4)%nat) as [Hsub Hin].
  { destruct (truthy (get data "important_years")).
    - destruct (py_iter _) as [xs|]; bind_step Hm; [|done].
      destruct (rmap _ _) as [strs|] eqn:Hstrs; bind_step Hm; [|done].
      apply Ok_inj in Hm as <-. split; [set_solver|].
      intros y [Hy|Hy]%elem_of_union; [right|by left].
      apply elem_of_list_to_set in Hy.
      apply rmap_Ok_inv in Hstrs.
      apply list_elem_of_lookup in Hy as [i Hi].
      destruct (Forall2_lookup_r _ _ _ _ _ Hstrs Hi) as (x & _ & Hx).
      destruct (py_str x) as [t|]; bind_step Hx; [|done].
      apply Ok_inj in Hx as <-. apply length_last_n.
    - apply Ok_inj in Hm as <-. split; [done|]. by left. }
  split_and!.
  - rewrite set_iter_perm. apply NoDup_elements.
  - intros y. rewrite set_iter_perm, elem_of_elements.
    intros [(p & Hp & ->)%H0|?]%Hin; [|done].
    destruct (parse_dob_Ok_str _ _ Hp) as [s Hs]. rewrite Hs in Hp.
    apply parse_dob_iff in Hp as (_ & _ & _ & _ & -> & _). done.
  - intros p Hp. rewrite set_iter_perm, elem_of_elements. apply Hsub.
    destruct (truthy (get data "dob")) eqn:Htr; [|done].
    destruct (parse_dob (get data "dob")) as [p'|] eqn:Hp'; [|done].
    injection Hp as <-. by apply H1.
Qed.

(** X3. When [min_len] exceeds [max_len] nothing is admitted and the result
    is empty. *)
Theorem generate_realistic_empty_range data count min_len max_len sp up out :
  max_len < min_len →
  generate_realistic data count min_len max_len sp up = Ok out →
  out = [].
Proof.
  intros Hlt Hgen. destruct out as [|x out]; [done|]. exfalso.
  apply generate_realistic_inv in Hgen
    as [[_ ?]|(tokens & c & rest & g & _ & _ & Hacc & Hout)]; [done|].
  assert (x ∈ c) as Hx
    by (eapply elem_of_output; rewrite <- Hout; by left).
  apply extends_accumulate in Hacc.
  destruct (extends_empty_admitted _ _ _ _ Hacc Hx) as (w & _ & [? ?] & _).
  lia.
Qed.

End years.

(** ** Transforms *)

Lemma length_bind_const {A B : Type} (f : A → list B) (l : list A) (n : nat) :
  (∀ x, x ∈ l → length (f x) = n) → length (l ≫= f) = (length l * n)%nat.
Proof.
  induction l as [|x l IH]; intros Hf; [done|].
  rewrite bind_cons, List.length_app, IH, Hf; [simpl; lia|by left|].
  intros y Hy. apply Hf. by right.
Qed.

(** X11. [append_specials] yields nothing when disabled and ten strings when
    enabled, each one character longer than the base. *)
Theorem append_specials_count base :
  append_specials base false = [] ∧
  length (append_specials base true) = 10%nat ∧
  ∀ v, v ∈ append_specials base true →
       String.length v = S (String.length base).
Proof.
  split_and!; [done|done|].
  intros v. unfold append_specials. cbn [negb fmap list_fmap app].
  rewrite !elem_of_cons, elem_of_nil.
  intros Hv. repeat destruct Hv as [->|Hv]; try done;
    rewrite length_app; simpl; lia.
Qed.

(** X12. [insert_special] yields nothing when disabled or when the base has
    fewer than two characters; otherwise it yields four strings for each
    of the [len(base) - 1] interior positions, each one character longer
    than the base. *)
Theorem insert_special_count base include :
  (include = false ∨ (String.length base < 2)%nat →
   insert_special base include = []) ∧
  (include = true → (2 ≤ String.length base)%nat →
   length (insert_special base include) = (4 * (String.length base - 1))%nat ∧
   ∀ v, v ∈ insert_special base include →
        String.length v = S (String.length base)).
Proof.
  unfold insert_special, Str.len. split.
  - intros [->|Hlt]; [done|].
    destruct include; simpl; [|done].
    destruct (Z.ltb_spec (Z.of_nat (String.length base)) 2); [done|lia].
  - intros -> Hlen. cbn [negb orb].
    destruct (Z.ltb_spec (Z.of_nat (String.length base)) 2); [lia|].
    split.
    + rewrite (length_bind_const _ _ (String.length base - 1)); [done|].
      intros sp _. rewrite (length_bind_const _ _ 1); [|done].
      rewrite length_seq. lia.
    + intros v (sp & (i & Hv & Hi)%list_elem_of_bind & Hsp)%list_elem_of_bind.
      apply list_elem_of_singleton in Hv as ->.
      apply elem_of_seq in Hi.
      rewrite !length_app, length_take_str, length_drop.
      assert (String.length sp = 1%nat) as ->.
      { revert Hsp. rewrite !elem_of_cons, elem_of_nil.
        intros Hsp. by repeat destruct Hsp as [->|Hsp]. }
      lia.
Qed.

(** X13. [numeric_suffixes] yields two strings, [base + n] and [n + base],
    for each of the supplied numbers and of the nine fixed ones. *)
Theorem numeric_suffixes_count base numbers :
  length (numeric_suffixes base numbers) = (2 * (length numbers + 9))%nat ∧
  ∀ v, v ∈ numeric_suffixes base numbers →
       ∃ n, (v = base +:+ n ∨ v = n +:+ base) ∧
            (n ∈ numbers ∨
             n ∈ ["1"; "2"; "3"; "123"; "007"; "69"; "420"; "12"; "21"]).
Proof.
  unfold numeric_suffixes. split.
  - rewrite (length_bind_const _ _ 2); [|done].
    rewrite List.length_app. simpl. lia.
  - intros v (n & Hv & Hn)%list_elem_of_bind.
    exists n. split.
    + revert Hv. rewrite !elem_of_cons, elem_of_nil. tauto.
    + by apply elem_of_app in Hn.
Qed.

Lemma length_alternate i s :
  String.length (alternate i s) = String.length s.
Proof.
  revert i. induction s as [|c s IH]; intros i; simpl; [done|].
  by rewrite IH.
Qed.

(** X14. [case_variants] keeps the length of an ASCII token in every
    variant; it yields one variant without [include_upper], and with it
    three, or four when the token has more than one character. *)
Theorem case_variants_lengths token include_upper :
  Str.isascii token →
  (∀ v, v ∈ case_variants token include_upper →
        String.length v = String.length token) ∧
  length (case_variants token include_upper)
    = (if include_upper
       then if bool_decide (1 < String.length token)%nat then 4 else 3
       else 1)%nat.
Proof.
  intros _. unfold case_variants, Str.len. split.
  - assert (String.length (Str.capitalize token) = String.length token) as Hcap.
    { destruct token; simpl; [done|]. unfold Str.lower. by rewrite length_map. }
    intros v. destruct include_upper.
    + destruct (1 <? Z.of_nat (String.length token));
        rewrite !elem_of_cons, elem_of_nil;
        intros Hv; repeat destruct Hv as [->|Hv]; try done;
        unfold Str.lower, Str.upper;
        rewrite ?length_map, ?length_alternate; done.
    + rewrite !elem_of_cons, elem_of_nil. intros [->|[]].
      unfold Str.lower. by rewrite length_map.
  - destruct include_upper; [|done].
    destruct (Z.ltb_spec 1 (Z.of_nat (String.length token)));
      case_bool_decide; simpl; lia.
Qed.

Lemma length_leet_char c :
  String.length (dict_get leet_table (KInt (ord c)) (String c "")) = 1%nat.
Proof.
  unfold leet_table, maketrans. simpl. repeat case_decide; done.
Qed.

Lemma length_translate_leet s :
  String.length (translate leet_table s) = String.length s.
Proof.
  induction s as [|c s IH]; [done|].
  cbn [translate String.length].
  by rewrite length_app, length_leet_char, IH.
Qed.

(** X15. [leet_variants] keeps the length of the token in every variant, and
    yields one variant more than the token has characters that lower to
    one of [aeiostgb]. *)
Theorem leet_variants_lengths token :
  (∀ v, v ∈ leet_variants token → String.length v = String.length token) ∧
  length (leet_variants token)
    = S (length (filter (fun c => str_in (Str.lower c) "aeiostgb")
                   (Str.chars token))).
Proof.
  rewrite leet_variants_singles. split.
  - intros v [->|Hv%elem_of_replicate]%elem_of_cons.
    + apply length_translate_leet.
    + by destruct Hv as [-> _].
  - simpl. by rewrite length_replicate.
Qed.

(** * The web wrapper [generate_web]

    The wrapper validates and normalizes the payload and then calls the
    generator.  Besides the [ValueError]s it raises itself, with their
    messages, it lets the exceptions of the builtins and of the
    generator pass. *)

Inductive web_exn : Type :=
  | Refused (msg : string)  (* [raise ValueError(msg)] of the wrapper *)
  | Builtin (e : exn)       (* raised by a builtin or by the generator *)
  | AttributeError.         (* a method looked up on a value without it *)

Inductive wresult (A : Type) : Type :=
  | Done (a : A)
  | Failed (e : web_exn).

Arguments Done {A} a.
Arguments Failed {A} e.

Global Instance wresult_ret : MRet wresult := fun _ a => Done a.

Global Instance wresult_bind : MBind wresult := fun _ _ k m =>
  match m with
  | Done a => k a
  | Failed e => Failed e
  end.

(** An exception of the generator, as the wrapper's caller sees it. *)
Definition lift {A : Type} (r : result A) : wresult A :=
  match r with
  | Ok a => Done a
  | Raise e => Failed (Builtin e)
  end.

(** [f] applied to the elements from left to right. *)
Fixpoint wmap {A B : Type} (f : A → wresult B) (l : list A) : wresult (list B) :=
  match l with
  | [] => Done []
  | x :: l' => y ← f x; ys ← wmap f l'; Done (y :: ys)
  end.

(** [payload.get(k, d)] *)
Definition get_or (payload : gmap string value) (k : string) (d : value) : value :=
  default d (payload !! k).

(** [v.strip()]: only a string has the method. *)
Definition strip_method (v : value) : wresult string :=
  match v with
  | VAtom (AStr s) => Done (Str.strip s)
  | _ => Failed AttributeError
  end.

(** The first field of [s] and the fields after it, the separators being
    the characters that satisfy [p]. *)
Fixpoint split_fields (p : ascii → bool) (s : string) : string * list string :=
  match s with
  | EmptyString => (EmptyString, [])
  | String c s' =>
      let '(f, fs) := split_fields p s' in
      if p c then (EmptyString, f :: fs) else (String c f, fs)
  end.

(** [re.split(r'[/-]', s)] *)
Definition split_dob (s : string) : list string :=
  let '(f, fs) :=
    split_fields (fun c => bool_decide (c = "/"%char) || bool_decide (c = "-"%char)) s in
  f :: fs.

(** [s.isdigit()] on ASCII text *)
Definition isdigit (s : string) : bool :=
  negb (String.eqb s "") && Str.forallb Char.is_digit s.

(** The white space that [int()] skips around a literal. *)
Definition is_int_space (c : ascii) : bool :=
  (((9 <=? Char.code c) && (Char.code c <=? 13)) || (Char.code c =? 32))%N.

Fixpoint lstrip_int (s : string) : string :=
  match s with
  | EmptyString => EmptyString
  | String c s' => if is_int_space c then lstrip_int s' else s
  end.

(** Digits, with single underscores allowed between them. *)
Fixpoint int_body (after_digit : bool) (s : string) : bool :=
  match s with
  | EmptyString => after_digit
  | String c s' =>
      if Char.is_digit c then int_body true s'
      else if bool_decide (c = "_"%char) then after_digit && int_body false s'
      else false
  end.

(** [int(s)] for a string, in base 10. *)
Definition int_of_str (s : string) : wresult Z :=
  let t := String.rev (lstrip_int (String.rev (lstrip_int s))) in
  let '(negative, body) :=
    match t with
    | String "-" r => (true, r)
    | String "+" r => (false, r)
    | _ => (false, t)
    end in
  if int_body false body then
    let ds := Str.filter Char.is_digit body in
    if (INT_MAX_STR_DIGITS <? String.length ds)%nat
    then Failed (Builtin ValueError)
    else Done (if negative : bool then - Str.to_int ds else Str.to_int ds)
  else Failed (Builtin ValueError).

(** [int(v)] *)
Definition py_int (v : value) : wresult Z :=
  match v with
  | VAtom (AInt n) => Done n
  | VAtom (ABool b) => Done (if b then 1 else 0)
  | VAtom (AStr s) => int_of_str s
  | VAtom ANone | VList _ => Failed (Builtin TypeError)
  end.

(** [f"{n:02d}"] *)
Definition format_02d (n : Z) : string :=
  let s := Str.of_int n in
  if (String.length s <? 2)%nat then "0" +:+ s else s.

(** A regular expression over character classes, concatenation and
    [+]. *)
Inductive regex : Type :=
  | RClass (p : ascii → bool)
  | RCat (r1 r2 : regex)
  | RPlus (r : regex).

(** What can be left of [s] after one to [fuel] matches of [step]. *)
Fixpoint plus_rests (fuel : nat) (step : string → list string) (s : string) : list string :=
  match fuel with
  | O => []
  | S fuel' => r ← step s; r :: plus_rests fuel' step r
  end.

(** What can be left of [s] after a match of [r] at its start. *)
Fixpoint rests (r : regex) (s : string) : list string :=
  match r with
  | RClass p =>
      match s with
      | String c s' => if p c then [s'] else []
      | EmptyString => []
      end
  | RCat r1 r2 => s' ← rests r1 s; rests r2 s'
  | RPlus r' => plus_rests (String.length s) (rests r') s
  end.

(** [re.match(r, s)] finds a match. *)
Definition re_match (r : regex) (s : string) : bool :=
  negb (bool_decide (rests r s = [])).

(** [[^@]+@[^@]+\.[^@]+] *)
Definition email_re : regex :=
  let not_at := RClass (fun c => negb (bool_decide (c = "@"%char))) in
  RCat (RPlus not_at)
    (RCat (RClass (fun c => bool_decide (c = "@"%char)))
       (RCat (RPlus not_at)
          (RCat (RClass (fun c => bool_decide (c = "."%char)))
             (RPlus not_at)))).

(** Lines 213 to 220: the date of birth, normalized. *)
Definition check_dob (v : value) : wresult string :=
  dob ← strip_method v;
  let parts := split_dob dob in
  if negb (bool_decide (length parts = 3%nat)) || negb (forallb isdigit parts)
  then Failed (Refused "DOB must be in DD/MM/YYYY format")
  else
    ns ← wmap int_of_str parts;
    match ns with
    | [d; m; y] =>
        if negb (bool_decide (1 ≤ d ≤ 31) && bool_decide (1 ≤ m ≤ 12)
                 && bool_decide (1900 ≤ y ≤ 2100))
        then Failed (Refused "Invalid date in DOB")
        else Done (format_02d d +:+ "/" +:+ format_02d m +:+ "/" +:+ Str.of_int y)
    | _ => Failed (Builtin ValueError)
    end.

(** Lines 222 to 225: the digits of the phone number. *)
Definition check_phone (v : value) : wresult string :=
  match v with
  | VAtom (AStr s) =>
      let phone := Str.filter Char.is_digit s in
      if negb (bool_decide (String.length phone = 10%nat))
      then Failed (Refused "Phone must be 10 digits")
      else Done phone
  | _ => Failed (Builtin TypeError)
  end.

(** Lines 227 to 230: the address, stripped. *)
Definition check_email (v : value) : wresult string :=
  email ← strip_method v;
  if str_in "@" email && negb (re_match email_re email)
  then Failed (Refused "Invalid email format")
  else Done email.

Global Instance atom_eq_dec : EqDecision atom.
Proof. solve_decision. Defined.

Global Instance value_eq_dec : EqDecision value.
Proof. solve_decision. Defined.

(** Lines 205 to 234: the normalized payload and the clamped count and
    length bounds. *)
Definition web_prepare (payload : gmap string value) : wresult (gmap string value * Z * Z * Z) :=
  if negb (bool_decide (get payload "auth_phrase" = VStr "I_HAVE_PERMISSION"))
  then Failed (Refused "Incorrect authorization phrase")
  else
    match
      filter (fun field => negb (truthy (get payload field)) = true)
        ["full_name"; "dob"; "phone"; "email"]
    with
    | field :: _ => Failed (Refused (field +:+ " is required"))
    | [] =>
        dob ← check_dob (get payload "dob");
        let payload := <["dob" := VStr dob]> payload in
        phone ← check_phone (get payload "phone");
        let payload := <["phone" := VStr phone]> payload in
        email ← check_email (get payload "email");
        let payload := <["email" := VStr email]> payload in
        count ← py_int (get_or payload "count" (VAtom (AInt 500)));
        let count := Z.max 1 (Z.min 5000 count) in
        min_len ← py_int (get_or payload "min_len" (VAtom (AInt 6)));
        let min_len := Z.max 1 min_len in
        max_len ← py_int (get_or payload "max_len" (VAtom (AInt 16)));
        let max_len := Z.min 50 max_len in
        Done (payload, count, min_len, max_len)
    end.

(** The dictionary that [generate_web] returns. *)
Record web_reply : Type := WebReply {
  reply_lines : list string;
  reply_count : nat;
}.

Section web.
Context `{PyRuntime}.

Definition generate_web (payload : gmap string value) : wresult web_reply :=
  '(payload, count, min_len, max_len) ← web_prepare payload;
  lines ←
    lift (generate_realistic payload count min_len max_len
            (truthy (get_or payload "include_specials" (VAtom (ABool true))))
            (truthy (get_or payload "include_uppercase" (VAtom (ABool true)))));
  Done {| reply_lines := lines; reply_count := length lines |}.

End web.

(** ** Properties of the wrapper *)

Ltac wbind_step H := cbn [mbind wresult_bind mret wresult_ret] in H.

Lemma Done_inj {A : Type} (a b : A) : Done a = Done b → a = b.
Proof. congruence. Qed.

Lemma format_02d_day d :
  1 ≤ d ≤ 31 →
  String.length (format_02d d) = 2%nat ∧
  Str.forallb Char.is_digit (format_02d d) ∧
  Str.to_int (format_02d d) = d.
Proof.
  intros Hd.
  assert (Forall (fun d =>
            String.length (format_02d d) = 2%nat ∧
            Str.forallb Char.is_digit (format_02d d) ∧
            Str.to_int (format_02d d) = d) (seqZ 1 31)) as Hall
    by compute_done.
  rewrite Forall_forall in Hall. apply Hall, elem_of_seqZ. lia.
Qed.

Lemma of_int_year y :
  1900 ≤ y ≤ 2100 →
  String.length (Str.of_int y) = 4%nat ∧
  Str.forallb Char.is_digit (Str.of_int y) ∧
  Str.to_int (Str.of_int y) = y.
Proof.
  intros Hy.
  assert (Forall (fun y =>
            String.length (Str.of_int y) = 4%nat ∧
            Str.forallb Char.is_digit (Str.of_int y) ∧
            Str.to_int (Str.of_int y) = y) (seqZ 1900 201)) as Hall
    by compute_done.
  rewrite Forall_forall in Hall. apply Hall, elem_of_seqZ. lia.
Qed.

Lemma check_dob_inv v dob :
  check_dob v = Done dob →
  ∃ s d m y,
    v = VStr s ∧ 1 ≤ d ≤ 31 ∧ 1 ≤ m ≤ 12 ∧ 1900 ≤ y ≤ 2100 ∧
    wmap int_of_str (split_dob (Str.strip s)) = Done [d; m; y] ∧
    dob = format_02d d +:+ "/" +:+ format_02d m +:+ "/" +:+ Str.of_int y.
Proof.
  unfold check_dob. destruct v as [[| | |s]|l]; try done.
  cbn [strip_method mbind wresult_bind]. intros Hc.
  destruct (_ || _) in Hc; [done|].
  destruct (wmap int_of_str _) as [ns|] eqn:Hns; wbind_step Hc; [|done].
  destruct ns as [|d [|m [|y [|]]]]; try done.
  destruct (bool_decide (1 ≤ d ≤ 31)) eqn:Hd; [|done].
  destruct (bool_decide (1 ≤ m ≤ 12)) eqn:Hm; [|done].
  destruct (bool_decide (1900 ≤ y ≤ 2100)) eqn:Hy; [|done].
  cbn [andb negb] in Hc. apply Done_inj in Hc as <-.
  apply bool_decide_eq_true in Hd, Hm, Hy.
  by exists s, d, m, y.
Qed.

Lemma check_phone_inv v phone :
  check_phone v = Done phone →
  ∃ s, v = VStr s ∧ phone = Str.filter Char.is_digit s ∧
       String.length phone = 10%nat.
Proof.
  unfold check_phone. destruct v as [[| | |s]|l]; try done.
  case_bool_decide as Hlen; [|done]. cbn [negb]. intros [= <-]. by exists s.
Qed.

Lemma check_email_inv v email :
  check_email v = Done email →
  ∃ s, v = VStr s ∧ email = Str.strip s ∧
       (str_in "@" email = false ∨ re_match email_re email = true).
Proof.
  unfold check_email. destruct v as [[| | |s]|l]; try done.
  cbn [strip_method mbind wresult_bind].
  destruct (str_in "@" (Str.strip s)) eqn:Hat;
    destruct (re_match email_re (Str.strip s)) eqn:Hre; cbn [andb negb];
    try done; intros [= <-]; exists s; auto.
Qed.

Lemma web_prepare_inv payload payload' count min_len max_len :
  web_prepare payload = Done (payload', count, min_len, max_len) →
  get payload "auth_phrase" = VStr "I_HAVE_PERMISSION" ∧
  (∀ field, field ∈ ["full_name"; "dob"; "phone"; "email"] →
            truthy (get payload field) = true) ∧
  ∃ dob phone email c a b,
    check_dob (get payload "dob") = Done dob ∧
    check_phone (get payload "phone") = Done phone ∧
    check_email (get payload "email") = Done email ∧
    payload' = <["email" := VStr email]>
                 (<["phone" := VStr phone]> (<["dob" := VStr dob]> payload)) ∧
    py_int (get_or payload "count" (VAtom (AInt 500))) = Done c ∧
    count = Z.max 1 (Z.min 5000 c) ∧
    py_int (get_or payload "min_len" (VAtom (AInt 6))) = Done a ∧
    min_len = Z.max 1 a ∧
    py_int (get_or payload "max_len" (VAtom (AInt 16))) = Done b ∧
    max_len = Z.min 50 b.
Proof.
  unfold web_prepare. intros Hp.
  case_bool_decide as Hauth; [|done]. cbn [negb] in Hp.
  destruct (filter _ _) as [|field ?] eqn:Hreq; [|done].
  assert (∀ field, field ∈ ["full_name"; "dob"; "phone"; "email"] →
                   truthy (get payload field) = true) as Htr.
  { intros field Hin. destruct (truthy (get payload field)) eqn:Hf; [done|].
    assert (field ∈ filter
              (fun field => negb (truthy (get payload field)) = true)
              ["full_name"; "dob"; "phone"; "email"]) as Hin'
      by (apply list_elem_of_filter; by rewrite Hf).
    rewrite Hreq in Hin'. by apply elem_of_nil in Hin'. }
  destruct (check_dob (get payload "dob")) as [dob|] eqn:Hdob;
    wbind_step Hp; [|done].
  assert (∀ k x, k ≠ "dob" → get (<["dob" := x]> payload) k = get payload k)
    as Hg1 by (intros; unfold get; by rewrite lookup_insert_ne).
  rewrite Hg1 in Hp by done.
  destruct (check_phone (get payload "phone")) as [phone|] eqn:Hphone;
    wbind_step Hp; [|done].
  assert (get (<["phone" := VStr phone]> (<["dob" := VStr dob]> payload)) "email"
          = get payload "email") as Hg2
    by (unfold get; by rewrite !lookup_insert_ne).
  rewrite Hg2 in Hp.
  destruct (check_email (get payload "email")) as [email|] eqn:Hemail;
    wbind_step Hp; [|done].
  assert (∀ k d, k ≠ "dob" → k ≠ "phone" → k ≠ "email" →
            get_or (<["email" := VStr email]>
                      (<["phone" := VStr phone]>
                         (<["dob" := VStr dob]> payload))) k d
            = get_or payload k d) as Hg3
    by (intros; unfold get_or; by rewrite !lookup_insert_ne).
  rewrite !Hg3 in Hp by done.
  destruct (py_int (get_or payload "count" _)) as [c|] eqn:Hc;
    wbind_step Hp; [|done].
  destruct (py_int (get_or payload "min_len" _)) as [a|] eqn:Ha;
    wbind_step Hp; [|done].
  destruct (py_int (get_or payload "max_len" _)) as [b|] eqn:Hb;
    wbind_step Hp; [|done].
  apply Done_inj in Hp. injection Hp as <- <- <- <-.
  split_and!; [done|done|]. by exists dob, phone, email, c, a, b.
Qed.

Lemma web_prepare_facts payload payload' count min_len max_len :
  web_prepare payload = Done (payload', count, min_len, max_len) →
  (∃ p, dob_facts payload' = Some p ∧
        1 ≤ Str.to_int (dd p) ≤ 31 ∧ 1 ≤ Str.to_int (mm p) ≤ 12 ∧
        1900 ≤ Str.to_int (yyyy p) ≤ 2100) ∧
  (∃ phone, get payload' "phone" = VStr phone ∧
            Re.fullmatch_digits10 phone = true) ∧
  1 ≤ count ≤ 5000 ∧ 1 ≤ min_len ∧ max_len ≤ 50 ∧
  (∀ k, k ∉ ["dob"; "phone"; "email"] → payload' !! k = payload !! k).
Proof.
  intros (_ & _ & dob & phone & email & c & a & b & Hdob & Hphone & Hemail
          & -> & _ & -> & _ & -> & _ & ->)%web_prepare_inv.
  split_and!; try lia.
  - apply check_dob_inv in Hdob
      as (s & d & m & y & _ & Hd & Hm & Hy & _ & ->).
    destruct (format_02d_day d Hd) as (Ld & Dd & Id).
    destruct (format_02d_day m) as (Lm & Dm & Im); [lia|].
    destruct (of_int_year y Hy) as (Ly & Dy & Iy).
    set (p := {| dd := format_02d d; mm := format_02d m; yyyy := Str.of_int y;
                 full := format_02d d +:+ format_02d m +:+ Str.of_int y |}).
    assert (parse_dob
              (VStr (format_02d d +:+ "/" +:+ format_02d m +:+ "/" +:+ Str.of_int y))
            = Ok p) as Hp by (by apply parse_dob_iff).
    exists p. split; [|simpl; lia].
    unfold dob_facts, get.
    rewrite !lookup_insert_ne, lookup_insert_eq by done. simpl.
    rewrite Hp.
    destruct (format_02d d) as [|? ?]; [done|]. done.
  - apply check_phone_inv in Hphone as (s & _ & -> & Hlen).
    exists (Str.filter Char.is_digit s). split.
    + unfold get. by rewrite lookup_insert_ne, lookup_insert_eq.
    + unfold Re.fullmatch_digits10.
      pose proof (digits_complete (Str.filter Char.is_digit s) ""
                    (forallb_filter _ _)) as Hd.
      rewrite Hlen, app_empty_r in Hd. by rewrite Hd.
  - intros k Hk. rewrite !not_elem_of_cons in Hk.
    destruct Hk as (? & ? & ? & _). by rewrite !lookup_insert_ne.
Qed.

(** X16. What the validation leaves for the generator: a date of birth that
    [parse_dob] accepts, with day, month and year in range; a phone
    number of ten digits; a count in [[1, 5000]], a minimal length of at
    least 1 and a maximal length of at most 50; and every other field
    as it was. *)
Theorem web_prepare_normalizes payload payload' count min_len max_len :
  web_prepare payload = Done (payload', count, min_len, max_len) →
  (∃ p, dob_facts payload' = Some p ∧
        1 ≤ Str.to_int (dd p) ≤ 31 ∧ 1 ≤ Str.to_int (mm p) ≤ 12 ∧
        1900 ≤ Str.to_int (yyyy p) ≤ 2100) ∧
  (∃ phone, get payload' "phone" = VStr phone ∧
            Re.fullmatch_digits10 phone = true) ∧
  1 ≤ count ≤ 5000 ∧ 1 ≤ min_len ∧ max_len ≤ 50 ∧
  (∀ k, k ∉ ["dob"; "phone"; "email"] → payload' !! k = payload !! k).
Proof. apply web_prepare_facts. Qed.

Section web_properties.
Context `{PyRuntime}.

Lemma generate_realistic_output data count min_len max_len sp up out :
  generate_realistic data count min_len max_len sp up = Ok out →
  NoDup out ∧
  (0 ≤ count → Z.of_nat (length out) ≤ Z.min count MAX_OUTPUT) ∧
  ∀ x, x ∈ out → ∃ w, x = w +:+ WATERMARK ∧ admissible min_len max_len w.
Proof.
  intros [[_ ->]|(tokens & c & rest & g & _ & _ & Hacc & ->)]%generate_realistic_inv.
  { split_and!; [constructor|unfold MAX_OUTPUT; simpl; lia|].
    by intros x ?%elem_of_nil. }
  destruct (output_sublist (Z.min count MAX_OUTPUT) g c)
    as (n & Hn & Hk & Hperm).
  split_and!.
  - rewrite Hn. eapply sublist_NoDup; [|apply sublist_take].
    rewrite Hperm. apply NoDup_elements.
  - intros Hcount. rewrite Hn, length_take, Hk by (unfold MAX_OUTPUT; lia).
    unfold MAX_OUTPUT. lia.
  - intros x Hx%elem_of_output.
    apply extends_accumulate in Hacc.
    by eapply extends_empty_admitted.
Qed.

Lemma generate_web_inv payload r :
  generate_web payload = Done r →
  ∃ payload' count min_len max_len sp up,
    web_prepare payload = Done (payload', count, min_len, max_len) ∧
    generate_realistic payload' count min_len max_len sp up
      = Ok (reply_lines r) ∧
    reply_count r = length (reply_lines r).
Proof.
  unfold generate_web. intros Hw.
  destruct (web_prepare payload) as [[[[payload' count] min_len] max_len]|]
    eqn:Hprep; wbind_step Hw; [|done].
  destruct (generate_realistic _ _ _ _ _ _) as [lines|] eqn:Hgen;
    cbn [lift mbind wresult_bind] in Hw; [|done].
  apply Done_inj in Hw as <-. simpl. eauto 10.
Qed.

(** X17. The reply of [generate_web]: its count is the number of its lines,
    of which there are at most 5000, all different; each line ends with
    the marker, has between 1 and 50 characters before it, and is not a
    blacklisted word with the marker. *)
Theorem generate_web_reply payload r :
  generate_web payload = Done r →
  reply_count r = length (reply_lines r) ∧
  (length (reply_lines r) ≤ 5000)%nat ∧
  NoDup (reply_lines r) ∧
  ∀ x, x ∈ reply_lines r →
       x = unmark x +:+ WATERMARK ∧ 1 ≤ Str.len (unmark x) ≤ 50 ∧
       (unmark x ∉ COMMON_BLACKLIST).
Proof.
  intros (payload' & count & min_len & max_len & sp & up & Hprep & Hgen & Hcount)
    %generate_web_inv.
  apply web_prepare_facts in Hprep as (_ & _ & Hc & Hmin & Hmax & _).
  apply generate_realistic_output in Hgen as (Hnd & Hlen & Hall).
  split_and!; [done| |done|].
  - specialize (Hlen ltac:(lia)). unfold MAX_OUTPUT in Hlen. lia.
  - intros x (w & -> & [Hw Hbl])%Hall. rewrite unmark_marked.
    split_and!; [done|lia|lia|done].
Qed.

End web_properties.

(** ** The address pattern *)

(** The strings a regular expression matches. *)
Inductive lang : regex → string → Prop :=
  | lang_class p c : p c = true → lang (RClass p) (String c "")
  | lang_cat r1 r2 m1 m2 :
      lang r1 m1 → lang r2 m2 → lang (RCat r1 r2) (m1 +:+ m2)
  | lang_plus_one r m : lang r m → lang (RPlus r) m
  | lang_plus_more r m1 m2 :
      lang r m1 → lang (RPlus r) m2 → lang (RPlus r) (m1 +:+ m2).

Lemma app_assoc_str a b c : (a +:+ b) +:+ c = a +:+ b +:+ c.
Proof.
  induction a as [|x a IH]; [done|]. rewrite !app_cons. by rewrite IH.
Qed.

Lemma lang_nonempty r m : lang r m → (0 < String.length m)%nat.
Proof.
  induction 1; rewrite ?length_app; simpl; lia.
Qed.

Lemma plus_rests_spec step (P : string → Prop) fuel s s' :
  (∀ t t', t' ∈ step t ↔ ∃ m, P m ∧ t = m +:+ t') →
  (∀ m, P m → (0 < String.length m)%nat) →
  (String.length s ≤ fuel)%nat →
  s' ∈ plus_rests fuel step s ↔
  ∃ ms, ms ≠ [] ∧ Forall P ms ∧ s = Str.join ms +:+ s'.
Proof.
  intros Hstep Hpos. revert s s'.
  induction fuel as [|fuel IH]; intros s s' Hlen.
  - split; [by intros ?%elem_of_nil|].
    intros ([|m ms] & Hne & Hall & ->); [done|].
    apply Forall_cons in Hall as [Hm%Hpos _].
    simpl in Hlen. rewrite !length_app in Hlen. lia.
  - cbn [plus_rests]. rewrite list_elem_of_bind. split.
    + intros (t & Hs' & (m & Hm & ->)%Hstep).
      apply elem_of_cons in Hs' as [->|Hs'].
      * exists [m]. split_and!; [done|by constructor|].
        simpl. by rewrite app_empty_r.
      * apply IH in Hs' as (ms & _ & Hall & ->).
        -- exists (m :: ms). split_and!; [done|by constructor|].
           simpl. by rewrite app_assoc_str.
        -- apply Hpos in Hm. rewrite length_app in Hlen. lia.
    + intros ([|m ms] & Hne & Hall & ->); [done|].
      apply Forall_cons in Hall as [Hm Hall]. simpl.
      exists (Str.join ms +:+ s'). split.
      * destruct ms as [|m' ms'].
        -- left.
        -- right. apply IH.
           ++ apply Hpos in Hm.
              change (Str.join (m :: m' :: ms'))
                with (m +:+ Str.join (m' :: ms')) in Hlen.
              rewrite !length_app in Hlen. rewrite length_app. lia.
           ++ by exists (m' :: ms').
      * apply Hstep. exists m. split; [done|]. by rewrite app_assoc_str.
Qed.

Lemma lang_plus_join r m :
  lang (RPlus r) m ↔ ∃ ms, ms ≠ [] ∧ Forall (lang r) ms ∧ m = Str.join ms.
Proof.
  split.
  - remember (RPlus r) as r' eqn:Hr. intros Hl. revert r Hr.
    induction Hl as [| |r0 m Hm _|r0 m1 m2 Hm1 _ _ IH]; intros r Hr; try done;
      injection Hr as ->.
    + exists [m]. split_and!; [done|by constructor|].
      simpl. by rewrite app_empty_r.
    + destruct (IH r eq_refl) as (ms & _ & Hall & ->).
      exists (m1 :: ms). split_and!; [done|by constructor|done].
  - intros (ms & Hne & Hall & ->).
    induction Hall as [|m ms Hm Hall IH]; [done|].
    destruct ms as [|m' ms'].
    + simpl. rewrite app_empty_r. by apply lang_plus_one.
    + apply lang_plus_more; [done|]. by apply IH.
Qed.

Lemma rests_spec r s s' :
  s' ∈ rests r s ↔ ∃ m, lang r m ∧ s = m +:+ s'.
Proof.
  revert s s'. induction r as [p|r1 IH1 r2 IH2|r IH]; intros s s'.
  - simpl. split.
    + destruct s as [|c s]; [by intros ?%elem_of_nil|].
      destruct (p c) eqn:Hc; [|by intros ?%elem_of_nil].
      intros ->%list_elem_of_singleton.
      exists (String c ""). split; [by constructor|done].
    + intros (m & Hm & ->). inversion Hm as [p' c Hc| | |]; subst.
      rewrite app_cons. simpl. rewrite Hc. by left.
  - cbn [rests]. rewrite list_elem_of_bind. split.
    + intros (t & (m2 & Hm2 & ->)%IH2 & (m1 & Hm1 & ->)%IH1).
      exists (m1 +:+ m2). split; [by constructor|]. by rewrite app_assoc_str.
    + intros (m & Hm & ->). inversion Hm as [|? ? m1 m2 Hm1 Hm2| |]; subst.
      exists (m2 +:+ s'). split.
      * apply IH2. by exists m2.
      * apply IH1. exists m1. split; [done|]. by rewrite app_assoc_str.
  - cbn [rests].
    rewrite (plus_rests_spec (rests r) (lang r)); [|apply IH|apply lang_nonempty|done].
    split.
    + intros (ms & Hne & Hall & ->). exists (Str.join ms). split; [|done].
      apply lang_plus_join. by exists ms.
    + intros (m & (ms & Hne & Hall & ->)%lang_plus_join & ->). by exists ms.
Qed.

Lemma re_match_spec r s :
  re_match r s = true ↔ ∃ m rest, lang r m ∧ s = m +:+ rest.
Proof.
  unfold re_match. rewrite negb_true_iff, bool_decide_eq_false. split.
  - intros Hne. destruct (rests r s) as [|s' l] eqn:Hr; [done|].
    assert (s' ∈ rests r s) as Hin by (rewrite Hr; by left).
    apply rests_spec in Hin as (m & ? & ?). by exists m, s'.
  - intros (m & rest & Hm & ->) Hr.
    assert (rest ∈ rests r (m +:+ rest)) as Hin
      by (apply rests_spec; by exists m).
    rewrite Hr in Hin. by apply elem_of_nil in Hin.
Qed.

(** One or more characters of a class. *)
Lemma lang_plus_class p m :
  lang (RPlus (RClass p)) m ↔ m ≠ "" ∧ Str.forallb p m.
Proof.
  rewrite lang_plus_join. split.
  - intros (ms & Hne & Hall & ->). split.
    + destruct Hall as [|m ms Hm _]; [done|].
      inversion Hm as [? c Hc| | |]; subst.
      by change (Str.join (String c "" :: ms)) with (String c (Str.join ms)).
    + clear Hne. induction Hall as [|m ms Hm _ IH]; [done|].
      inversion Hm as [? c Hc| | |]; subst.
      change (Str.join (String c "" :: ms)) with (String c (Str.join ms)).
      simpl. rewrite Hc. done.
  - intros [Hne Hall]. exists (Str.chars m). split_and!.
    + by destruct m.
    + clear Hne. induction m as [|c m IH]; [constructor|].
      simpl in Hall. apply andb_prop_elim in Hall as [Hc Hm].
      constructor; [|by apply IH]. constructor. by apply Is_true_true.
    + clear. induction m as [|c m IH]; [done|].
      change (Str.join (Str.chars (String c m)))
        with (String c (Str.join (Str.chars m))).
      by rewrite <- IH.
Qed.

(** The shape the wrapper asks of an address that contains an [@]: one
    or more characters other than [@], an [@], one or more such
    characters, a dot, and one or more such characters; what follows is
    not examined. *)
Definition email_shape (e : string) : Prop :=
  ∃ a b c rest,
    e = a +:+ "@" +:+ b +:+ "." +:+ c +:+ rest ∧
    a ≠ "" ∧ b ≠ "" ∧ c ≠ "" ∧
    Str.forallb (fun x => negb (bool_decide (x = "@"%char))) a ∧
    Str.forallb (fun x => negb (bool_decide (x = "@"%char))) b ∧
    Str.forallb (fun x => negb (bool_decide (x = "@"%char))) c.

Lemma email_re_spec e : re_match email_re e = true ↔ email_shape e.
Proof.
  rewrite re_match_spec. unfold email_re, email_shape. split.
  - intros (m & rest & Hm & ->).
    inversion Hm as [|? ? a m1 Ha Hm1| |]; subst.
    inversion Hm1 as [|? ? x m2 Hx Hm2| |]; subst.
    inversion Hm2 as [|? ? b m3 Hb Hm3| |]; subst.
    inversion Hm3 as [|? ? y c Hy Hc| |]; subst.
    inversion Hx as [? cx Hcx| | |]; subst.
    inversion Hy as [? cy Hcy| | |]; subst.
    apply bool_decide_eq_true in Hcx as ->, Hcy as ->.
    apply lang_plus_class in Ha as [? ?], Hb as [? ?], Hc as [? ?].
    exists a, b, c, rest. split_and!; try done.
    by rewrite !app_assoc_str.
  - intros (a & b & c & rest & -> & Ha & Hb & Hc & Fa & Fb & Fc).
    exists (a +:+ "@" +:+ b +:+ "." +:+ c), rest. split.
    + apply lang_cat; [by apply lang_plus_class|].
      apply (lang_cat _ _ "@"); [by constructor|].
      apply lang_cat; [by apply lang_plus_class|].
      apply (lang_cat _ _ "."); [by constructor|].
      by apply lang_plus_class.
    + by rewrite !app_assoc_str.
Qed.

(** X19. The address check: a string is stripped and accepted when it holds
    no [@] or has the shape above, and refused otherwise; anything but a
    string has no [strip] method. *)
Theorem check_email_accepts v :
  match v with
  | VAtom (AStr s) =>
      (str_in "@" (Str.strip s) = false ∨ email_shape (Str.strip s) →
       check_email v = Done (Str.strip s)) ∧
      (str_in "@" (Str.strip s) = true → ¬ email_shape (Str.strip s) →
       check_email v = Failed (Refused "Invalid email format"))
  | _ => check_email v = Failed AttributeError
  end.
Proof.
  destruct v as [[| | |s]|l]; try done.
  unfold check_email. cbn [strip_method mbind wresult_bind].
  destruct (re_match email_re (Str.strip s)) eqn:Hre.
  - apply email_re_spec in Hre. rewrite andb_false_r. split; [done|].
    by intros _ [].
  - rewrite andb_true_r. split.
    + intros [->|Hs%email_re_spec]; [done|congruence].
    + by intros ->.
Qed.

(** ** What a reply requires *)

Lemma is_digit_not_space c : Char.is_digit c = true → Char.is_space c = false.
Proof. by destruct c as [[] [] [] [] [] [] [] []]. Qed.

Section web_requires.
Context `{PyRuntime}.

Lemma generate_web_refused payload :
  get payload "auth_phrase" ≠ VStr "I_HAVE_PERMISSION" →
  generate_web payload = Failed (Refused "Incorrect authorization phrase").
Proof.
  intros Hauth. unfold generate_web, web_prepare.
  by rewrite bool_decide_eq_false_2.
Qed.

Lemma generate_web_full_name payload r :
  generate_web payload = Done r →
  ∃ s, get payload "full_name" = VStr s.
Proof.
  intros (payload' & count & min_len & max_len & sp & up & Hprep & Hgen & _)
    %generate_web_inv.
  apply web_prepare_inv in Hprep as Hinv.
  destruct Hinv as (_ & Htr & dob & phone & email & c & a & b & Hdob & _ & _
                    & Hpayload & _).
  assert (get payload' "full_name" = get payload "full_name") as Hfn
    by (subst payload'; unfold get; by rewrite !lookup_insert_ne).
  assert (payload' !! "dob" = Some (VStr dob)) as Hd
    by (subst payload'; by rewrite !lookup_insert_ne, lookup_insert_eq by done).
  apply generate_realistic_inv in Hgen
    as [[Htok _]|(tokens & cs & rest & g & _ & _ & Hacc & _)].
  - (* the normalized date of birth is a token *)
    exfalso.
    apply check_dob_inv in Hdob as (s & d & m & y & _ & Hday & _ & _ & _ & ->).
    destruct (format_02d_day d Hday) as (Ld & Dd & _).
    destruct (format_02d d) as [|c1 f] eqn:Hf; [done|].
    simpl in Dd. apply andb_prop_elim in Dd as [Dc _].
    apply Is_true_true, is_digit_not_space in Dc.
    set (dob := String c1 f +:+ "/" +:+ format_02d m +:+ "/" +:+ Str.of_int y) in *.
    assert (∃ t, sanitize (VStr dob) = Ok t ∧ t ≠ "") as (t & Ht & Hne).
    { rewrite sanitize_str. eexists. split; [done|].
      subst dob. rewrite app_cons. simpl. by rewrite Dc. }
    assert (t ∈ ([] : list string)) as Hin.
    { apply (elem_of_extract_tokens _ _ _ Htok). split; [done|].
      left. exists "dob", dob. split_and!; [done|compute_done|done]. }
    by apply elem_of_nil in Hin.
  - apply accumulate_inv in Hacc as (_ & name & _ & _ & Hname & _).
    rewrite Hfn in Hname.
    assert (truthy (get payload "full_name") = true) as Hfull
      by (apply Htr; by left).
    unfold py_or in Hname. rewrite Hfull in Hname. simpl in Hname.
    rewrite Hfull in Hname.
    by eapply sanitize_Ok_truthy.
Qed.

(** X18. Without the authorization phrase [generate_web] refuses, whatever
    else the payload holds; and a reply is only given when the phrase is
    right and [full_name], [dob], [phone] and [email] are non-empty
    strings. *)
Theorem generate_web_requires payload :
  (get payload "auth_phrase" ≠ VStr "I_HAVE_PERMISSION" →
   generate_web payload = Failed (Refused "Incorrect authorization phrase")) ∧
  (∀ r, generate_web payload = Done r →
        get payload "auth_phrase" = VStr "I_HAVE_PERMISSION" ∧
        ∀ field, field ∈ ["full_name"; "dob"; "phone"; "email"] →
                 ∃ s, get payload field = VStr s ∧ s ≠ "").
Proof.
  split; [apply generate_web_refused|].
  intros r Hr.
  destruct (generate_web_full_name payload r Hr) as [fn Hfn].
  apply generate_web_inv in Hr
    as (payload' & count & min_len & max_len & sp & up & Hprep & _ & _).
  apply web_prepare_inv in Hprep
    as (Hauth & Htr & dob & phone & email & c & a & b & Hdob & Hphone & Hemail & _).
  split; [done|].
  apply check_dob_inv in Hdob as (sd & ? & ? & ? & Hd & _).
  apply check_phone_inv in Hphone as (sp' & Hp & _).
  apply check_email_inv in Hemail as (se & He & _).
  intros field Hin. specialize (Htr field Hin).
  assert (∃ s, get payload field = VStr s) as [s Hs].
  { revert Hin. rewrite !elem_of_cons, elem_of_nil.
    intros [->|[->|[->|[->|[]]]]]; eauto. }
  exists s. split; [done|]. rewrite Hs in Htr. simpl in Htr.
  intros ->. done.
Qed.

End web_requires.

(** ** The further properties at concrete payloads *)

(** A payload that the wrapper accepts. *)
Definition sample_payload : gmap string value :=
  list_to_map
    [ ("auth_phrase", VStr "I_HAVE_PERMISSION");
      ("full_name", VStr "John Smith"); ("dob", VStr " 5-6-1990 ");
      ("phone", VStr "(555) 123-4567"); ("email", VStr " j@x.org ");
      ("count", VStr "3"); ("min_len", VAtom (AInt 0));
      ("max_len", VAtom (AInt 99)) ].

Lemma generate_realistic_not_blacklisted_witness :
  generate_realistic (H := stable_runtime) ann_lee 5 8 8 false false
    = Ok ["annleebo--EDU"; "boannlee--EDU"; "4nnl3380--EDU"] ∧
  "annleebo--EDU" ∈ ["annleebo--EDU"; "boannlee--EDU"; "4nnl3380--EDU"] ∧
  (unmark "annleebo--EDU" ∉ COMMON_BLACKLIST).
Proof.
  assert (generate_realistic (H := stable_runtime) ann_lee 5 8 8 false false
          = Ok ["annleebo--EDU"; "boannlee--EDU"; "4nnl3380--EDU"]) as Hgen
    by (vm_compute; reflexivity).
  assert ("annleebo--EDU" ∈ ["annleebo--EDU"; "boannlee--EDU"; "4nnl3380--EDU"])
    as Hin by left.
  exact (conj Hgen (conj Hin
    (generate_realistic_not_blacklisted _ _ _ _ _ _ _ _ Hgen Hin))).
Defined.

Lemma generate_realistic_length_exact_witness :
  0 ≤ 2 ∧
  generate_realistic (H := stable_runtime) ann_lee 2 8 8 false false
    = Ok ["annleebo--EDU"; "4nnl3380--EDU"] ∧
  ((extract_tokens (H := stable_runtime) ann_lee = Ok [] ∧
    ["annleebo--EDU"; "4nnl3380--EDU"] = []) ∨
   ∃ tokens candidates rest g,
     extract_tokens (H := stable_runtime) ann_lee = Ok tokens ∧ tokens ≠ [] ∧
     accumulate (H := stable_runtime) ann_lee tokens 2 8 8 false false
       = Ok (candidates, rest, g) ∧
     Z.of_nat (length ["annleebo--EDU"; "4nnl3380--EDU"])
       = Z.min (Z.min 2 MAX_OUTPUT) (Z.of_nat (size candidates)) ∧
     ∀ x, x ∈ ["annleebo--EDU"; "4nnl3380--EDU"] → x ∈ candidates).
Proof.
  assert (0 ≤ 2) as Hcount by lia.
  assert (generate_realistic (H := stable_runtime) ann_lee 2 8 8 false false
          = Ok ["annleebo--EDU"; "4nnl3380--EDU"]) as Hgen
    by (vm_compute; reflexivity).
  exact (conj Hcount (conj Hgen
    (generate_realistic_length_exact _ _ _ _ _ _ _ Hcount Hgen))).
Defined.

Lemma accumulate_keeps_pairs_witness :
  ∃ r,
    accumulate (H := stable_runtime) ann_lee ["annlee"; "bo"] 5 6 16 false false
      = Ok r ∧
    ["annlee"; "bo"] !! 0%nat = Some "annlee" ∧
    ["annlee"; "bo"] !! 1%nat = Some "bo" ∧ (0 < 1)%nat ∧
    "annlee.bo" ∈ ["annlee" +:+ "bo"; "annlee" +:+ "." +:+ "bo";
                   "annlee" +:+ "_" +:+ "bo"] ∧
    admissible 6 16 "annlee.bo" ∧
    "annlee.bo" +:+ WATERMARK ∈ r.1.1.
Proof.
  destruct (accumulate_total (H := stable_runtime) ann_lee ["annlee"; "bo"]
              5 6 16 false false) as [r Hacc].
  { intros k v Hkv _. unfold ann_lee in Hkv. cbn [list_to_map foldr] in Hkv.
    repeat (apply lookup_insert_Some in Hkv as [[<- <-]|[_ Hkv]];
            [simpl; auto|]). done. }
  assert (["annlee"; "bo"] !! 0%nat = Some "annlee") as H0 by reflexivity.
  assert (["annlee"; "bo"] !! 1%nat = Some "bo") as H1 by reflexivity.
  assert (0 < 1)%nat as H01 by lia.
  assert ("annlee.bo" ∈ ["annlee" +:+ "bo"; "annlee" +:+ "." +:+ "bo";
                         "annlee" +:+ "_" +:+ "bo"]) as Hw by (right; left).
  assert (admissible 6 16 "annlee.bo") as Hadm
    by (apply (bool_decide_unpack _); vm_compute; exact I).
  exists r.
  exact (conj Hacc (conj H0 (conj H1 (conj H01 (conj Hw (conj Hadm
    (accumulate_keeps_pairs (H := stable_runtime) _ _ _ _ _ _ _ r 0%nat 1%nat
       _ _ _ Hacc H0 H1 H01 Hw Hadm))))))).
Defined.

Lemma sanitize_clean_idempotent_witness :
  Str.isascii " Ann Lee " ∧
  sanitize (VStr " Ann Lee ") = Ok "annlee" ∧
  Str.isascii "annlee" ∧
  clean "annlee" ∧ (String.length "annlee" ≤ String.length " Ann Lee ")%nat ∧
  sanitize (VStr "annlee") = Ok "annlee".
Proof.
  assert (Str.isascii " Ann Lee ") as Ha by (vm_compute; exact I).
  assert (sanitize (VStr " Ann Lee ") = Ok "annlee") as Hs
    by (vm_compute; reflexivity).
  exact (conj Ha (conj Hs (sanitize_clean_idempotent _ _ Ha Hs))).
Defined.

Lemma parse_dob_parts_witness :
  Str.isascii "15/06/1990" ∧
  (parse_dob (VStr "15/06/1990") = Ok john_smith_dob ↔
   "15/06/1990"
   = dd john_smith_dob +:+ "/" +:+ mm john_smith_dob +:+ "/" +:+
     yyyy john_smith_dob ∧
   full john_smith_dob
   = dd john_smith_dob +:+ mm john_smith_dob +:+ yyyy john_smith_dob ∧
   String.length (dd john_smith_dob) = 2%nat ∧
   String.length (mm john_smith_dob) = 2%nat ∧
   String.length (yyyy john_smith_dob) = 4%nat ∧
   Str.forallb Char.is_digit (dd john_smith_dob) ∧
   Str.forallb Char.is_digit (mm john_smith_dob) ∧
   Str.forallb Char.is_digit (yyyy john_smith_dob)).
Proof.
  assert (Str.isascii "15/06/1990") as Ha by (vm_compute; exact I).
  exact (conj Ha (parse_dob_parts "15/06/1990" john_smith_dob Ha)).
Defined.

Lemma case_variants_lengths_witness :
  Str.isascii "aBc" ∧
  (∀ v, v ∈ case_variants "aBc" true →
        String.length v = String.length "aBc") ∧
  length (case_variants "aBc" true)
  = (if bool_decide (1 < String.length "aBc")%nat then 4 else 3)%nat.
Proof.
  assert (Str.isascii "aBc") as Ha by (vm_compute; exact I).
  exact (conj Ha (case_variants_lengths "aBc" true Ha)).
Defined.


Lemma date_variants_of_parsed_witness :
  parse_dob (VStr "15/06/1990") = Ok john_smith_dob ∧
  length (date_variants john_smith_dob) = 7%nat ∧
  date_variants john_smith_dob !! 0%nat
    = Some (dd john_smith_dob +:+ mm john_smith_dob +:+ yyyy john_smith_dob) ∧
  date_variants john_smith_dob !! 1%nat
    = Some (dd john_smith_dob +:+ mm john_smith_dob +:+ yyyy john_smith_dob) ∧
  (size (list_to_set (date_variants john_smith_dob) : gset string) ≤ 6)%nat.
Proof.
  assert (parse_dob (VStr "15/06/1990") = Ok john_smith_dob) as Hp
    by (vm_compute; reflexivity).
  exact (conj Hp (date_variants_of_parsed _ _ Hp)).
Defined.

Lemma get_years_short_distinct_witness :
  get_years (H := stable_runtime) john_smith = Ok ["1990"] ∧
  NoDup ["1990"] ∧
  (∀ y, y ∈ ["1990"] → (String.length y ≤ 4)%nat) ∧
  (∀ p, dob_facts john_smith = Some p → yyyy p ∈ ["1990"]).
Proof.
  assert (get_years (H := stable_runtime) john_smith = Ok ["1990"]) as Hy
    by (vm_compute; reflexivity).
  exact (conj Hy (get_years_short_distinct _ _ Hy)).
Defined.

Lemma generate_realistic_empty_range_witness :
  8 < 9 ∧
  generate_realistic (H := stable_runtime) ann_lee 5 9 8 false false = Ok [] ∧
  ([] : list string) = [].
Proof.
  assert (8 < 9) as Hlt by lia.
  assert (generate_realistic (H := stable_runtime) ann_lee 5 9 8 false false
          = Ok []) as Hgen by (vm_compute; reflexivity).
  exact (conj Hlt (conj Hgen
    (generate_realistic_empty_range _ _ _ _ _ _ _ Hlt Hgen))).
Defined.

Lemma web_prepare_normalizes_witness :
  ∃ payload',
    web_prepare sample_payload = Done (payload', 3, 1, 50) ∧
    (∃ p, dob_facts payload' = Some p ∧
          1 ≤ Str.to_int (dd p) ≤ 31 ∧ 1 ≤ Str.to_int (mm p) ≤ 12 ∧
          1900 ≤ Str.to_int (yyyy p) ≤ 2100) ∧
    (∃ phone, get payload' "phone" = VStr phone ∧
              Re.fullmatch_digits10 phone = true) ∧
    1 ≤ 3 ≤ 5000 ∧ 1 ≤ 1 ∧ 50 ≤ 50 ∧
    (∀ k, k ∉ ["dob"; "phone"; "email"] →
          payload' !! k = sample_payload !! k).
Proof.
  assert (∃ payload', web_prepare sample_payload = Done (payload', 3, 1, 50))
    as [payload' Hprep] by (eexists; vm_compute; reflexivity).
  exists payload'.
  exact (conj Hprep (web_prepare_normalizes _ _ _ _ _ Hprep)).
Defined.

Lemma generate_web_reply_witness :
  ∃ r,
    generate_web (H := stable_runtime) sample_payload = Done r ∧
    reply_count r = length (reply_lines r) ∧
    (length (reply_lines r) ≤ 5000)%nat ∧
    NoDup (reply_lines r) ∧
    ∀ x, x ∈ reply_lines r →
         x = unmark x +:+ WATERMARK ∧ 1 ≤ Str.len (unmark x) ≤ 50 ∧
         (unmark x ∉ COMMON_BLACKLIST).
Proof.
  assert (∃ r, generate_web (H := stable_runtime) sample_payload = Done r)
    as [r Hr] by (eexists; vm_compute; reflexivity).
  exists r.
  exact (conj Hr (generate_web_reply (H := stable_runtime) _ _ Hr)).
Defined.
